(** * MediTrust: the chain-record client (contractUtils.js)

    A shallow embedding of [meditrust-lite/src/app/utils/contractUtils.js]
    and the properties of its wallet / contract / persistence wrappers.

    The module is a set of [async] functions over one module-level variable,
    [contractAddress], the browser's [localStorage], the injected wallet
    ([window.ethereum]) and the ethers.js library.  Everything outside the
    module is an explicit environment whose calls either return a value or
    throw; the module's own code is written in a small state-and-exception
    monad that also records every call that leaves the module.

    One call is followed from its start to its settlement: an [await] is the
    point where the awaited outcome arrives, and no other call of the module
    runs in between.  Storage is a total map: [setItem] and [getItem] do not
    throw. *)

From Stdlib Require Import ZArith String List.
From Stdlib Require Import Floats.SpecFloat.
From stdpp Require Import base option list strings gmap.

Open Scope string_scope.
Open Scope list_scope.

(** ** JavaScript values *)

(** IEEE 754 binary64, the representation of a JavaScript number. *)
Definition float64 : Type := spec_float.

(** The number value of a mathematical integer: round to nearest, ties to
    even, at 53 bits of precision ([Number(n)] for a wide integer [n], and
    the value of an array index). *)
Definition Z2F (n : Z) : float64 := binary_normalize 53 1024 n 0 false.

#[local] Set Warnings "-register-all".
Inductive jsval : Type :=
  | JUndefined
  | JNull
  | JBool (b : bool)
  | JNumber (x : float64)
  | JBigInt (n : Z)
  | JString (s : string)
  | JError (name message : string)
  | JObject (fields : list (string * jsval))
  | JArray (elems : list jsval).

(** [new Error(message)] *)
Definition new_Error (message : string) : jsval := JError "Error" message.

(** [typeof v] *)
Definition typeof (v : jsval) : string :=
  match v with
  | JUndefined => "undefined"
  | JNull => "object"
  | JBool _ => "boolean"
  | JNumber _ => "number"
  | JBigInt _ => "bigint"
  | JString _ => "string"
  | JError _ _ => "object"
  | JObject _ => "object"
  | JArray _ => "object"
  end.


(** Property read [v.k]; a missing property reads as [undefined]. *)
Fixpoint assoc (k : string) (fields : list (string * jsval)) : jsval :=
  match fields with
  | [] => JUndefined
  | (k', v) :: rest => if String.eqb k k' then v else assoc k rest
  end.

Definition get_field (k : string) (v : jsval) : jsval :=
  match v with
  | JObject fields => assoc k fields
  | _ => JUndefined
  end.

(** A numeric field as the contract call decodes it: already a plain number,
    or a wide integer (an ethers [BigNumber], or a [bigint]). *)
Inductive numeric : Type :=
  | NumPlain (x : float64)
  | NumWide (n : Z).

(** [Number(v)] on a decoded numeric field. *)
Definition Number (v : numeric) : float64 :=
  match v with
  | NumPlain x => x
  | NumWide n => Z2F n
  end.

(** The value a numeric field has before coercion. *)
Definition numeric_val (v : numeric) : jsval :=
  match v with
  | NumPlain x => JNumber x
  | NumWide n => JBigInt n
  end.

(** ** Outcomes of calls: a returned / resolved value, or a thrown /
    rejected one. *)

Inductive outcome (A : Type) : Type :=
  | Ok (a : A)
  | Throw (e : jsval).
Arguments Ok {A} a.
Arguments Throw {A} e.

(** ** The world outside the module *)

(** Modelled from the spec: the ABI [MediTrust.json] is not part of the
    sources; a record decoded from the contract has the five fields of the
    spec's MedicalRecord, [timestamp] and [size] being the numeric ones. *)
Record ChainRecord : Type := {
  ipfsHash : jsval;
  owner : jsval;
  timestamp : numeric;
  recordType : jsval;
  size : numeric
}.

(** A submitted transaction: [tx.wait()] resolves or rejects. *)
Record Tx : Type := {
  tx_hash : string;
  tx_wait : outcome jsval
}.

(** The contract handle built by [new ethers.Contract(address, abi, signer)]:
    one method per ABI entry the module uses. *)
Module Contract.
Record t : Type := {
  addRecord : jsval -> jsval -> jsval -> outcome Tx;
  grantAccess : jsval -> jsval -> outcome Tx;
  revokeAccess : jsval -> jsval -> outcome Tx;
  hasAccess : jsval -> jsval -> outcome jsval;
  getRecord : jsval -> outcome ChainRecord;
  getMyRecords : outcome (list ChainRecord);
  getAccessibleRecords : outcome (list ChainRecord)
}.
End Contract.

Record Signer : Type := { signer_account : string }.

Record Provider : Type := { getSigner : Signer }.

(** [window.ethereum]: the injected wallet, with its [request] method. *)
Record Ethereum : Type := { request : string -> outcome jsval }.

Record Window : Type := { ethereum : option Ethereum }.

Record Env : Type := {
  (** [None] when [typeof window === 'undefined'] (server-side rendering) *)
  window : option Window;
  (** [process.env.NEXT_PUBLIC_CONTRACT_ADDRESS] *)
  NEXT_PUBLIC_CONTRACT_ADDRESS : option string;
  (** [new ethers.providers.Web3Provider(window.ethereum)] *)
  Web3Provider : Ethereum -> outcome Provider;
  (** [new ethers.Contract(address, MediTrustArtifact.abi, signer)] *)
  ethers_Contract : string -> Signer -> outcome Contract.t
}.

(** ** Observable interactions *)

Inductive event : Type :=
  | EvRequest (method : string)
  | EvWeb3Provider
  | EvGetSigner
  | EvContract (address : string) (s : Signer)
  | EvCall (method : string) (args : list jsval)
  | EvWait (hash : string)
  | EvGetItem (key : string)
  | EvSetItem (key value : string)
  | EvConsoleError (label : string) (error : jsval).

(** ** Module state *)

Record Store : Type := {
  contractAddress : string;
  localStorage : gmap string string;
  trace : list event
}.

Definition set_contractAddress (a : string) (st : Store) : Store :=
  {| contractAddress := a; localStorage := localStorage st; trace := trace st |}.

Definition set_localStorage (m : gmap string string) (st : Store) : Store :=
  {| contractAddress := contractAddress st; localStorage := m; trace := trace st |}.

Definition log (ev : event) (st : Store) : Store :=
  {| contractAddress := contractAddress st; localStorage := localStorage st;
     trace := trace st ++ [ev] |}.

(** ** The monad of the module's code *)

Definition M (A : Type) : Type := Store -> outcome A * Store.

Definition ret {A} (a : A) : M A := fun st => (Ok a, st).

Definition bind {A B} (m : M A) (k : A -> M B) : M B :=
  fun st =>
    match m st with
    | (Ok a, st') => k a st'
    | (Throw e, st') => (Throw e, st')
    end.

Definition throw {A} (e : jsval) : M A := fun st => (Throw e, st).

(** [try { body } catch (error) { handler }] *)
Definition try_catch {A} (body : M A) (handler : jsval -> M A) : M A :=
  fun st =>
    match body st with
    | (Ok a, st') => (Ok a, st')
    | (Throw e, st') => handler e st'
    end.

Definition emit (ev : event) : M unit := fun st => (Ok tt, log ev st).

(** A call that leaves the module: it is recorded, then its outcome is
    returned or thrown ([await] of a rejected promise throws). *)
Definition await {A} (ev : event) (o : outcome A) : M A :=
  fun st => (o, log ev st).

Definition read_contractAddress : M string :=
  fun st => (Ok (contractAddress st), st).

Definition write_contractAddress (a : string) : M unit :=
  fun st => (Ok tt, set_contractAddress a st).

Definition console_error (label : string) (error : jsval) : M unit :=
  emit (EvConsoleError label error).

(** [localStorage.setItem(key, value)] *)
Definition localStorage_setItem (key value : string) : M unit :=
  fun st =>
    (Ok tt, log (EvSetItem key value)
              (set_localStorage (<[key := value]> (localStorage st)) st)).

(** [localStorage.getItem(key)]; [None] is JavaScript's [null]. *)
Definition localStorage_getItem (key : string) : M (option string) :=
  fun st => (Ok (localStorage st !! key), log (EvGetItem key) st).

Declare Scope js_scope.
Delimit Scope js_scope with js.
Notation "x <- m ;; k" := (bind m (fun x => k))
  (at level 100, m at level 99, right associativity) : js_scope.
Notation "m ;; k" := (bind m (fun _ => k))
  (at level 100, right associativity) : js_scope.
Open Scope js_scope.

(** JavaScript truthiness of a string: only the empty string is falsy. *)
Definition truthy (s : string) : bool := negb (String.eqb s "").

(** [v || ''] for an optional string [v] *)
Definition or_empty (v : option string) : string :=
  match v with
  | Some s => if truthy s then s else ""
  | None => ""
  end.

Definition storage_key : string := "mediTrustContractAddress".

Section Client.

Variable env : Env.

(** Line 5: the module-level initialiser. *)
Definition startup (persisted : gmap string string) : Store :=
  {| contractAddress := or_empty (NEXT_PUBLIC_CONTRACT_ADDRESS env);
     localStorage := persisted;
     trace := [] |}.

(** Reading the global [window]; a [ReferenceError] without one. *)
Definition global_window : M Window :=
  match window env with
  | Some w => ret w
  | None => throw (JError "ReferenceError" "window is not defined")
  end.

Record ProviderAndSigner : Type := { provider : Provider; signer : Signer }.

Definition getProviderAndSigner : M ProviderAndSigner :=
  w <- global_window ;;
  match ethereum w with
  | None =>
      throw (new_Error
        "MetaMask is not installed. Please install MetaMask to use this application.")
  | Some eth =>
      await (EvRequest "eth_requestAccounts") (request eth "eth_requestAccounts") ;;
      provider <- await EvWeb3Provider (Web3Provider env eth) ;;
      signer <- await EvGetSigner (Ok (getSigner provider)) ;;
      ret {| provider := provider; signer := signer |}
  end.

Definition getContract (signer : Signer) : M Contract.t :=
  address <- read_contractAddress ;;
  if negb (truthy address) then
    throw (new_Error "Contract address not set. Please deploy the contract first.")
  else
    contract <- await (EvContract address signer) (ethers_Contract env address signer) ;;
    ret contract.

Definition setContractAddress (address : string) : M unit :=
  write_contractAddress address ;;
  match window env with
  | Some _ => localStorage_setItem storage_key address
  | None => ret tt
  end.

Definition initContractAddress : M unit :=
  match window env with
  | Some _ =>
      savedAddress <- localStorage_getItem storage_key ;;
      match savedAddress with
      | Some a => if truthy a then write_contractAddress a else ret tt
      | None => ret tt
      end
  | None => ret tt
  end.

Definition addRecord (ipfsHash recordType fileSize : jsval) : M Tx :=
  try_catch
    (ps <- getProviderAndSigner ;;
     contract <- getContract (signer ps) ;;
     tx <- await (EvCall "addRecord" [ipfsHash; recordType; fileSize])
                 (Contract.addRecord contract ipfsHash recordType fileSize) ;;
     await (EvWait (tx_hash tx)) (tx_wait tx) ;;
     ret tx)
    (fun error =>
       console_error "Error adding record to blockchain:" error ;;
       throw error).

Definition grantAccess (recordId doctorAddress : jsval) : M Tx :=
  try_catch
    (ps <- getProviderAndSigner ;;
     contract <- getContract (signer ps) ;;
     tx <- await (EvCall "grantAccess" [recordId; doctorAddress])
                 (Contract.grantAccess contract recordId doctorAddress) ;;
     await (EvWait (tx_hash tx)) (tx_wait tx) ;;
     ret tx)
    (fun error =>
       console_error "Error granting access:" error ;;
       throw error).

Definition revokeAccess (recordId doctorAddress : jsval) : M Tx :=
  try_catch
    (ps <- getProviderAndSigner ;;
     contract <- getContract (signer ps) ;;
     tx <- await (EvCall "revokeAccess" [recordId; doctorAddress])
                 (Contract.revokeAccess contract recordId doctorAddress) ;;
     await (EvWait (tx_hash tx)) (tx_wait tx) ;;
     ret tx)
    (fun error =>
       console_error "Error revoking access:" error ;;
       throw error).

(** The local constant of the source has the name of the exported
    function; the binder below shadows in the same way. *)
Definition hasAccess (recordId address : jsval) : M jsval :=
  try_catch
    (ps <- getProviderAndSigner ;;
     contract <- getContract (signer ps) ;;
     hasAccess <- await (EvCall "hasAccess" [recordId; address])
                        (Contract.hasAccess contract recordId address) ;;
     ret hasAccess)
    (fun error =>
       console_error "Error checking access:" error ;;
       throw error).

Definition getRecord (recordId : jsval) : M jsval :=
  try_catch
    (ps <- getProviderAndSigner ;;
     contract <- getContract (signer ps) ;;
     record <- await (EvCall "getRecord" [recordId])
                     (Contract.getRecord contract recordId) ;;
     ret (JObject
            [("ipfsHash", ipfsHash record);
             ("owner", owner record);
             ("timestamp", JNumber (Number (timestamp record)));
             ("recordType", recordType record);
             ("size", JNumber (Number (size record)))]))
    (fun error =>
       console_error "Error getting record:" error ;;
       throw error).

Definition getMyRecords : M jsval :=
  try_catch
    (ps <- getProviderAndSigner ;;
     contract <- getContract (signer ps) ;;
     records <- await (EvCall "getMyRecords" [])
                      (Contract.getMyRecords contract) ;;
     ret (JArray (imap (fun index record =>
            JObject
              [("id", JNumber (Z2F (Z.of_nat index)));
               ("ipfsHash", ipfsHash record);
               ("timestamp", JNumber (Number (timestamp record)));
               ("recordType", recordType record);
               ("size", JNumber (Number (size record)))]) records)))
    (fun error =>
       console_error "Error getting my records:" error ;;
       throw error).

Definition getAccessibleRecords : M jsval :=
  try_catch
    (ps <- getProviderAndSigner ;;
     contract <- getContract (signer ps) ;;
     records <- await (EvCall "getAccessibleRecords" [])
                      (Contract.getAccessibleRecords contract) ;;
     ret (JArray (imap (fun index record =>
            JObject
              [("id", JNumber (Z2F (Z.of_nat index)));
               ("ipfsHash", ipfsHash record);
               ("owner", owner record);
               ("timestamp", JNumber (Number (timestamp record)));
               ("recordType", recordType record);
               ("size", JNumber (Number (size record)))]) records)))
    (fun error =>
       console_error "Error getting accessible records:" error ;;
       throw error).

End Client.

(** ** The record operations as one family

    The default export of the module is the table of its functions; the
    seven record operations are its entries that talk to the contract. *)

Inductive operation : Type :=
  | OpAddRecord (ipfsHash recordType fileSize : jsval)
  | OpGrantAccess (recordId doctorAddress : jsval)
  | OpRevokeAccess (recordId doctorAddress : jsval)
  | OpHasAccess (recordId address : jsval)
  | OpGetRecord (recordId : jsval)
  | OpGetMyRecords
  | OpGetAccessibleRecords.

(** What a call resolves with: the transaction, or a plain value. *)
Inductive result : Type :=
  | RTx (tx : Tx)
  | RValue (v : jsval).

Definition fmap_M {A B} (f : A -> B) (m : M A) : M B :=
  fun st =>
    match m st with
    | (Ok a, st') => (Ok (f a), st')
    | (Throw e, st') => (Throw e, st')
    end.

Definition run (env : Env) (o : operation) : M result :=
  match o with
  | OpAddRecord h t n => fmap_M RTx (addRecord env h t n)
  | OpGrantAccess i d => fmap_M RTx (grantAccess env i d)
  | OpRevokeAccess i d => fmap_M RTx (revokeAccess env i d)
  | OpHasAccess i a => fmap_M RValue (hasAccess env i a)
  | OpGetRecord i => fmap_M RValue (getRecord env i)
  | OpGetMyRecords => fmap_M RValue (getMyRecords env)
  | OpGetAccessibleRecords => fmap_M RValue (getAccessibleRecords env)
  end.

(** The interactions a computation adds to the trace of the store it
    starts from. *)
Definition issued {A} (m : M A) (st : Store) : list event :=
  drop (length (trace st)) (trace (snd (m st))).

(** The label each operation logs its failure under. *)
Definition label (o : operation) : string :=
  match o with
  | OpAddRecord _ _ _ => "Error adding record to blockchain:"
  | OpGrantAccess _ _ => "Error granting access:"
  | OpRevokeAccess _ _ => "Error revoking access:"
  | OpHasAccess _ _ => "Error checking access:"
  | OpGetRecord _ => "Error getting record:"
  | OpGetMyRecords => "Error getting my records:"
  | OpGetAccessibleRecords => "Error getting accessible records:"
  end.

(** The contract method an operation invokes, and its arguments. *)
Definition method (o : operation) : string :=
  match o with
  | OpAddRecord _ _ _ => "addRecord"
  | OpGrantAccess _ _ => "grantAccess"
  | OpRevokeAccess _ _ => "revokeAccess"
  | OpHasAccess _ _ => "hasAccess"
  | OpGetRecord _ => "getRecord"
  | OpGetMyRecords => "getMyRecords"
  | OpGetAccessibleRecords => "getAccessibleRecords"
  end.

Definition arguments (o : operation) : list jsval :=
  match o with
  | OpAddRecord h t n => [h; t; n]
  | OpGrantAccess i d => [i; d]
  | OpRevokeAccess i d => [i; d]
  | OpHasAccess i a => [i; a]
  | OpGetRecord i => [i]
  | OpGetMyRecords => []
  | OpGetAccessibleRecords => []
  end.

(** ** The two errors the module creates itself *)

Definition wallet_missing_error : jsval :=
  new_Error "MetaMask is not installed. Please install MetaMask to use this application.".

Definition configuration_error : jsval :=
  new_Error "Contract address not set. Please deploy the contract first.".

Definition account_request : event := EvRequest "eth_requestAccounts".

(** ** What the environment answers, stated without the code

    These predicates describe the world, not the module: which wallet is
    injected, what it replies, what ethers builds. *)

(** The injected wallet of a browser environment. *)
Definition wallet (env : Env) (eth : Ethereum) : Prop :=
  exists w, window env = Some w /\ ethereum w = Some eth.

(** The account request is granted and a provider is built: the signer
    [s] is the one the provider hands out. *)
Definition signer_obtained (env : Env) (s : Signer) : Prop :=
  exists eth v p,
    wallet env eth /\
    request eth "eth_requestAccounts" = Ok v /\
    Web3Provider env eth = Ok p /\
    s = getSigner p.

(** A signer is obtained, the address is set, and ethers builds the handle
    [c] for that address and signer. *)
Definition connected (env : Env) (addr : string) (s : Signer) (c : Contract.t) : Prop :=
  signer_obtained env s /\ addr <> "" /\ ethers_Contract env addr s = Ok c.

(** The reply of the contract method of an operation. *)
Inductive reply : Type :=
  | ReplyTx (tx : Tx)
  | ReplyValue (v : jsval)
  | ReplyRecord (r : ChainRecord)
  | ReplyRecords (rs : list ChainRecord).

Definition outcome_map {A B} (f : A -> B) (o : outcome A) : outcome B :=
  match o with
  | Ok a => Ok (f a)
  | Throw e => Throw e
  end.

Definition invoke (c : Contract.t) (o : operation) : outcome reply :=
  match o with
  | OpAddRecord h t n => outcome_map ReplyTx (Contract.addRecord c h t n)
  | OpGrantAccess i d => outcome_map ReplyTx (Contract.grantAccess c i d)
  | OpRevokeAccess i d => outcome_map ReplyTx (Contract.revokeAccess c i d)
  | OpHasAccess i a => outcome_map ReplyValue (Contract.hasAccess c i a)
  | OpGetRecord i => outcome_map ReplyRecord (Contract.getRecord c i)
  | OpGetMyRecords => outcome_map ReplyRecords (Contract.getMyRecords c)
  | OpGetAccessibleRecords => outcome_map ReplyRecords (Contract.getAccessibleRecords c)
  end.

(** Where an error can originate during an operation, and which error it
    is: the first step of the round trip that does not succeed. *)
Inductive raised (env : Env) (addr : string) (o : operation) : jsval -> Prop :=
  | raised_no_window :
      window env = None ->
      raised env addr o (JError "ReferenceError" "window is not defined")
  | raised_no_wallet w :
      window env = Some w -> ethereum w = None ->
      raised env addr o wallet_missing_error
  | raised_request eth e :
      wallet env eth ->
      request eth "eth_requestAccounts" = Throw e ->
      raised env addr o e
  | raised_provider eth v e :
      wallet env eth ->
      request eth "eth_requestAccounts" = Ok v ->
      Web3Provider env eth = Throw e ->
      raised env addr o e
  | raised_unset s :
      signer_obtained env s -> addr = "" ->
      raised env addr o configuration_error
  | raised_handle s e :
      signer_obtained env s -> addr <> "" ->
      ethers_Contract env addr s = Throw e ->
      raised env addr o e
  | raised_call s c e :
      connected env addr s c ->
      invoke c o = Throw e ->
      raised env addr o e
  | raised_wait s c tx e :
      connected env addr s c ->
      invoke c o = Ok (ReplyTx tx) ->
      tx_wait tx = Throw e ->
      raised env addr o e.

(** An event that is a contract method invocation. *)
Definition is_call (ev : event) : bool :=
  match ev with
  | EvCall _ _ => true
  | _ => false
  end.

(** An event that reaches the wallet or the chain. *)
Definition is_network (ev : event) : bool :=
  match ev with
  | EvRequest _ | EvCall _ _ | EvWait _ => true
  | _ => false
  end.

(** The store after the interactions [evs] were added to its trace. *)
Definition extend (st : Store) (evs : list event) : Store :=
  {| contractAddress := contractAddress st; localStorage := localStorage st;
     trace := trace st ++ evs |}.

(** The interactions that build a contract handle for [addr]. *)
Definition handshake (addr : string) (s : Signer) : list event :=
  [account_request; EvWeb3Provider; EvGetSigner; EvContract addr s].

Definition invocation (o : operation) : event :=
  EvCall (method o) (arguments o).

(** A new session of the page: the module is loaded again, the browser
    storage is what the previous session left. *)
Definition fresh_session (env : Env) (previous : Store) : Store :=
  startup env (localStorage previous).

(** ** Vocabulary of the statements *)

(** The object [getRecord] builds. *)
Definition record_view (record : ChainRecord) : jsval :=
  JObject
    [("ipfsHash", ipfsHash record);
     ("owner", owner record);
     ("timestamp", JNumber (Number (timestamp record)));
     ("recordType", recordType record);
     ("size", JNumber (Number (size record)))].

(** The element [getMyRecords] builds at position [index]. *)
Definition my_view (index : nat) (record : ChainRecord) : jsval :=
  JObject
    [("id", JNumber (Z2F (Z.of_nat index)));
     ("ipfsHash", ipfsHash record);
     ("timestamp", JNumber (Number (timestamp record)));
     ("recordType", recordType record);
     ("size", JNumber (Number (size record)))].

(** The element [getAccessibleRecords] builds at position [index]. *)
Definition accessible_view (index : nat) (record : ChainRecord) : jsval :=
  JObject
    [("id", JNumber (Z2F (Z.of_nat index)));
     ("ipfsHash", ipfsHash record);
     ("owner", owner record);
     ("timestamp", JNumber (Number (timestamp record)));
     ("recordType", recordType record);
     ("size", JNumber (Number (size record)))].

(** Either a handle is built for [addr], or every operation stops, with
    the same error, before the contract is reached. *)
Inductive link (env : Env) (addr : string) : Prop :=
  | link_up s c :
      connected env addr s c -> link env addr
  | link_down e evs :
      (forall o, raised env addr o e) ->
      (forall o st, contractAddress st = addr ->
         run env o st = (Throw e, extend st (evs ++ [EvConsoleError (label o) e]))) ->
      Forall (fun ev => is_call ev = false) evs ->
      (forall s c, ~ connected env addr s c) ->
      link env addr.

(** The store after a sequence of calls, each in the environment of its
    own moment. *)
Fixpoint run_all (calls : list (Env * operation)) (st : Store) : Store :=
  match calls with
  | [] => st
  | (env, o) :: rest => run_all rest (snd (run env o st))
  end.

(** The claim of the spec for an unset address, as it is worded: the
    configuration error, and nothing sent to the wallet or the chain. *)
Definition fails_without_network (env : Env) (o : operation) (st : Store) : Prop :=
  fst (run env o st) = Throw configuration_error /\
  Forall (fun ev => is_network ev = false) (issued (run env o) st).

(** The address a fresh session ends up with after the previous session
    called [setContractAddress a] and the new one [initContractAddress]. *)
Definition restored (env : Env) (a : string) (st : Store) : string :=
  contractAddress
    (snd (initContractAddress env
            (fresh_session env (snd (setContractAddress env a st))))).

(** [Number.MAX_SAFE_INTEGER], 2^53 - 1 *)
Definition MAX_SAFE_INTEGER : Z := 9007199254740991.

(** The integer a number is, when it is one. *)
Definition float_int (x : float64) : option Z :=
  match x with
  | S754_zero _ => Some 0%Z
  | S754_finite s m e =>
      if (0 <=? e)%Z then Some (cond_Zopp s (Zpos m * 2 ^ e))
      else if (Zpos m mod 2 ^ (- e) =? 0)%Z
           then Some (cond_Zopp s (Zpos m / 2 ^ (- e)))
           else None
  | _ => None
  end.

(** The integer a value is, when it is a number that is one. *)
Definition number_int (v : jsval) : option Z :=
  match v with
  | JNumber x => float_int x
  | _ => None
  end.



(** ** Vocabulary of the further properties *)

(** The operations that submit a transaction. *)
Definition is_write (o : operation) : bool :=
  match o with
  | OpAddRecord _ _ _ | OpGrantAccess _ _ | OpRevokeAccess _ _ => true
  | _ => false
  end.

(** An event that awaits the confirmation of a transaction. *)
Definition is_wait (ev : event) : bool :=
  match ev with
  | EvWait _ => true
  | _ => false
  end.

(** An event that writes to the diagnostic channel. *)
Definition is_console (ev : event) : bool :=
  match ev with
  | EvConsoleError _ _ => true
  | _ => false
  end.

(** An event that reads or writes the browser storage. *)
Definition is_storage (ev : event) : bool :=
  match ev with
  | EvGetItem _ | EvSetItem _ _ => true
  | _ => false
  end.

(** What an operation resolves with, given the reply of its method. *)
Definition shape (o : operation) (r : reply) : result :=
  match r with
  | ReplyTx tx => RTx tx
  | ReplyValue v => RValue v
  | ReplyRecord record => RValue (record_view record)
  | ReplyRecords records =>
      match o with
      | OpGetAccessibleRecords => RValue (JArray (imap accessible_view records))
      | _ => RValue (JArray (imap my_view records))
      end
  end.

(** The store a page has once the module is loaded over the storage
    [persisted] and [initContractAddress] has run. *)
Definition page_load (env : Env) (persisted : gmap string string) : Store :=
  snd (initContractAddress env (startup env persisted)).

(** The address of a page loaded in [env2] after a session in [env1] called
    [setContractAddress a]. *)
Definition restored_across (env1 env2 : Env) (a : string) (st : Store) : string :=
  contractAddress
    (page_load env2 (localStorage (snd (setContractAddress env1 a st)))).

(** The ways a record operation settles. *)
Inductive settlement (env : Env) (o : operation) (st : Store) : Prop :=
  | settles_unconnected e evs s :
      (forall s' c, ~ connected env (contractAddress st) s' c) ->
      evs `prefix_of` handshake (contractAddress st) s ->
      (forall st', contractAddress st' = contractAddress st ->
         run env o st' =
           (Throw e, extend st' (evs ++ [EvConsoleError (label o) e]))) ->
      settlement env o st
  | settles_call_throws s c e :
      connected env (contractAddress st) s c ->
      invoke c o = Throw e ->
      settlement env o st
  | settles_wait_throws s c tx e :
      connected env (contractAddress st) s c ->
      invoke c o = Ok (ReplyTx tx) ->
      tx_wait tx = Throw e ->
      settlement env o st
  | settles_mined s c tx receipt :
      connected env (contractAddress st) s c ->
      invoke c o = Ok (ReplyTx tx) ->
      tx_wait tx = Ok receipt ->
      settlement env o st
  | settles_read s c r :
      connected env (contractAddress st) s c ->
      invoke c o = Ok r ->
      (forall tx, r <> ReplyTx tx) ->
      settlement env o st.

(** ** Concrete environments *)

Module Demo.

Definition patient : Signer := {| signer_account := "0xPATIENT" |}.

(** The record of the spec's example; it carries no [owner]. *)
Definition xray : ChainRecord :=
  {| ipfsHash := JString "Qm123";
     owner := JUndefined;
     timestamp := NumPlain (Z2F 1000);
     recordType := JString "xray";
     size := NumPlain (Z2F 2048) |}.

(** A record as ethers decodes it: wide integers, and an owner. *)
Definition scan : ChainRecord :=
  {| ipfsHash := JString "QmScan";
     owner := JString "0xPATIENT";
     timestamp := NumWide 1700000000;
     recordType := JString "mri";
     size := NumWide 9007199254740993 |}.

Definition mined : Tx := {| tx_hash := "0xTX"; tx_wait := Ok JNull |}.

Definition reverted : Tx :=
  {| tx_hash := "0xBAD"; tx_wait := Throw (new_Error "transaction failed") |}.

Definition contract : Contract.t :=
  {| Contract.addRecord := fun _ _ _ => Ok mined;
     Contract.grantAccess := fun _ _ => Ok reverted;
     Contract.revokeAccess := fun _ _ => Throw (new_Error "execution reverted");
     Contract.hasAccess := fun _ _ => Ok (JBool true);
     Contract.getRecord := fun _ => Ok scan;
     Contract.getMyRecords := Ok [xray];
     Contract.getAccessibleRecords := Ok [xray; scan] |}.

Definition granting : Ethereum :=
  {| request := fun _ => Ok (JArray [JString "0xPATIENT"]) |}.

Definition user_rejected : jsval := new_Error "User rejected the request.".

Definition rejecting : Ethereum :=
  {| request := fun _ => Throw user_rejected |}.

(** A browser page with the given wallet and build-time default. *)
Definition browser (eth : option Ethereum) (default : option string) : Env :=
  {| window := Some {| ethereum := eth |};
     NEXT_PUBLIC_CONTRACT_ADDRESS := default;
     Web3Provider := fun _ => Ok {| getSigner := patient |};
     ethers_Contract := fun _ _ => Ok contract |}.

(** Server-side rendering: no [window]. *)
Definition server : Env :=
  {| window := None;
     NEXT_PUBLIC_CONTRACT_ADDRESS := None;
     Web3Provider := fun _ => Throw (new_Error "unsupported provider");
     ethers_Contract := fun _ _ => Ok contract |}.

Definition unset : Store :=
  {| contractAddress := ""; localStorage := ∅; trace := [] |}.

Definition deployed : Store :=
  {| contractAddress := "0xABC"; localStorage := ∅; trace := [] |}.

End Demo.

(** * Properties *)

(** ** Proof tools *)

Ltac unfold_client :=
  cbv beta iota zeta delta
    [run fmap_M addRecord grantAccess revokeAccess hasAccess
     getRecord getMyRecords getAccessibleRecords try_catch bind
     getProviderAndSigner getContract global_window await emit
     console_error throw ret read_contractAddress signer provider log] in *.

Lemma issued_app {A} (m : M A) (st : Store) (evs : list event) :
  trace (snd (m st)) = trace st ++ evs -> issued m st = evs.
Proof.
  intros H. unfold issued. rewrite H. apply drop_app_length.
Qed.

Lemma truthy_nonempty (s : string) : truthy s = true <-> s <> "".
Proof.
  unfold truthy. rewrite negb_true_iff. apply String.eqb_neq.
Qed.

Lemma truthy_empty (s : string) : truthy s = false <-> s = "".
Proof.
  unfold truthy. rewrite negb_false_iff. apply String.eqb_eq.
Qed.

Ltac store_eq :=
  unfold log, extend, handshake, invocation, account_request;
  cbn [contractAddress localStorage trace method arguments label app];
  rewrite <- ?app_assoc; cbn [app]; reflexivity.

Ltac use_env :=
  repeat match goal with
  | H : wallet _ _ |- _ => destruct H as (? & ? & ?)
  | H : signer_obtained _ _ |- _ => destruct H as (? & ? & ? & ? & ? & ? & ?)
  | H : connected _ _ _ _ |- _ => destruct H as (? & ? & ?)
  | H : _ <> "" |- _ => apply truthy_nonempty in H
  end; subst.

Ltac rewrite_env :=
  repeat match goal with
  | H : window _ = _ |- _ => rewrite H
  | H : ethereum _ = _ |- _ => rewrite H
  | H : request _ _ = _ |- _ => rewrite H
  | H : Web3Provider _ _ = _ |- _ => rewrite H
  | H : truthy _ = _ |- _ => rewrite H
  | H : ethers_Contract _ _ _ = _ |- _ => rewrite H
  | H : tx_wait _ = _ |- _ => rewrite H
  end.

(** Splitting the reply of a contract method by operation. *)
Ltac use_invoke H :=
  unfold invoke, outcome_map in H;
  repeat match type of H with
  | context [match ?x with _ => _ end] => destruct x eqn:?
  end; simplify_eq.

Ltac run_step :=
  unfold_client;
  repeat (progress (rewrite_env; cbv beta iota zeta;
                    cbn [contractAddress localStorage trace negb]));
  repeat match goal with
  | H : ?x = _ |- context [?x] => rewrite H
  end;
  repeat (progress (rewrite_env; cbv beta iota zeta;
                    cbn [contractAddress localStorage trace negb])).

(** ** The model on concrete inputs *)

Example addRecord_mined :
  run (Demo.browser (Some Demo.granting) None)
      (OpAddRecord (JString "Qm123") (JString "xray") (JNumber (Z2F 2048)))
      Demo.deployed =
    (Ok (RTx Demo.mined),
     extend Demo.deployed
       [account_request; EvWeb3Provider; EvGetSigner;
        EvContract "0xABC" Demo.patient;
        EvCall "addRecord" [JString "Qm123"; JString "xray"; JNumber (Z2F 2048)];
        EvWait "0xTX"]).
Proof. reflexivity. Qed.

Example grantAccess_reverted :
  run (Demo.browser (Some Demo.granting) None)
      (OpGrantAccess (JNumber (Z2F 0)) (JString "0xDOC")) Demo.deployed =
    (Throw (new_Error "transaction failed"),
     extend Demo.deployed
       [account_request; EvWeb3Provider; EvGetSigner;
        EvContract "0xABC" Demo.patient;
        EvCall "grantAccess" [JNumber (Z2F 0); JString "0xDOC"];
        EvWait "0xBAD";
        EvConsoleError "Error granting access:" (new_Error "transaction failed")]).
Proof. reflexivity. Qed.

Example getMyRecords_on_server :
  fst (run Demo.server OpGetMyRecords Demo.deployed) =
    Throw (JError "ReferenceError" "window is not defined").
Proof. reflexivity. Qed.

Example setContractAddress_on_server :
  snd (setContractAddress Demo.server "0xABC" Demo.unset) =
    {| contractAddress := "0xABC"; localStorage := ∅; trace := [] |}.
Proof. reflexivity. Qed.

Example setContractAddress_in_browser :
  localStorage (snd (setContractAddress (Demo.browser None None) "0xABC" Demo.unset))
    !! storage_key = Some "0xABC".
Proof. reflexivity. Qed.

(** Beyond [MAX_SAFE_INTEGER] the coercion rounds: 2^53 + 1 becomes 2^53. *)
Example Number_rounds_wide_integer :
  Number (NumWide 9007199254740993) = Z2F 9007199254740992.
Proof. reflexivity. Qed.

(** *** The store is threaded, never rewritten *)

Lemma issued_extend {A} (m : M A) (st : Store) (out : outcome A) (evs : list event) :
  m st = (out, extend st evs) -> issued m st = evs.
Proof. intros H. apply issued_app. by rewrite H. Qed.

(** *** Runs that stop before a handle is built *)

Lemma run_no_window (env : Env) (o : operation) (st : Store) :
  window env = None ->
  let e := JError "ReferenceError" "window is not defined" in
  run env o st = (Throw e, extend st [EvConsoleError (label o) e]).
Proof. intros; destruct o; run_step; f_equal; store_eq. Qed.

Lemma run_no_wallet (env : Env) (o : operation) (st : Store) (w : Window) :
  window env = Some w -> ethereum w = None ->
  run env o st =
    (Throw wallet_missing_error,
     extend st [EvConsoleError (label o) wallet_missing_error]).
Proof. intros; destruct o; run_step; f_equal; store_eq. Qed.

Lemma run_rejected (env : Env) (o : operation) (st : Store) (eth : Ethereum) (e : jsval) :
  wallet env eth ->
  request eth "eth_requestAccounts" = Throw e ->
  run env o st =
    (Throw e, extend st [account_request; EvConsoleError (label o) e]).
Proof. intros; use_env; destruct o; run_step; f_equal; store_eq. Qed.

Lemma run_provider_throws (env : Env) (o : operation) (st : Store)
    (eth : Ethereum) (v e : jsval) :
  wallet env eth ->
  request eth "eth_requestAccounts" = Ok v ->
  Web3Provider env eth = Throw e ->
  run env o st =
    (Throw e,
     extend st [account_request; EvWeb3Provider; EvConsoleError (label o) e]).
Proof. intros; use_env; destruct o; run_step; f_equal; store_eq. Qed.

Lemma run_unset (env : Env) (o : operation) (st : Store) (s : Signer) :
  signer_obtained env s ->
  contractAddress st = "" ->
  run env o st =
    (Throw configuration_error,
     extend st [account_request; EvWeb3Provider; EvGetSigner;
                EvConsoleError (label o) configuration_error]).
Proof.
  intros Hs Ha; apply truthy_empty in Ha; use_env.
  destruct o; run_step; f_equal; store_eq.
Qed.

Lemma run_handle_throws (env : Env) (o : operation) (st : Store) (s : Signer) (e : jsval) :
  signer_obtained env s ->
  contractAddress st <> "" ->
  ethers_Contract env (contractAddress st) s = Throw e ->
  run env o st =
    (Throw e,
     extend st (handshake (contractAddress st) s ++ [EvConsoleError (label o) e])).
Proof.
  intros; use_env. destruct o; run_step; f_equal; store_eq.
Qed.

(** *** Runs that reach the contract *)

Lemma run_call_throws (env : Env) (o : operation) (st : Store)
    (s : Signer) (c : Contract.t) (e : jsval) :
  connected env (contractAddress st) s c ->
  invoke c o = Throw e ->
  run env o st =
    (Throw e,
     extend st (handshake (contractAddress st) s ++
                [invocation o; EvConsoleError (label o) e])).
Proof.
  intros Hc Hi; use_env. destruct o; use_invoke Hi; run_step; f_equal; store_eq.
Qed.

Lemma run_wait_throws (env : Env) (o : operation) (st : Store)
    (s : Signer) (c : Contract.t) (tx : Tx) (e : jsval) :
  connected env (contractAddress st) s c ->
  invoke c o = Ok (ReplyTx tx) ->
  tx_wait tx = Throw e ->
  run env o st =
    (Throw e,
     extend st (handshake (contractAddress st) s ++
                [invocation o; EvWait (tx_hash tx); EvConsoleError (label o) e])).
Proof.
  intros Hc Hi Hw; use_env. destruct o; use_invoke Hi; run_step; f_equal; store_eq.
Qed.

Lemma run_tx_mined (env : Env) (o : operation) (st : Store)
    (s : Signer) (c : Contract.t) (tx : Tx) (v : jsval) :
  connected env (contractAddress st) s c ->
  invoke c o = Ok (ReplyTx tx) ->
  tx_wait tx = Ok v ->
  run env o st =
    (Ok (RTx tx),
     extend st (handshake (contractAddress st) s ++
                [invocation o; EvWait (tx_hash tx)])).
Proof.
  intros Hc Hi Hw; use_env. destruct o; use_invoke Hi; run_step; f_equal; store_eq.
Qed.

Lemma run_value (env : Env) (o : operation) (st : Store)
    (s : Signer) (c : Contract.t) (v : jsval) :
  connected env (contractAddress st) s c ->
  invoke c o = Ok (ReplyValue v) ->
  run env o st =
    (Ok (RValue v),
     extend st (handshake (contractAddress st) s ++ [invocation o])).
Proof.
  intros Hc Hi; use_env. destruct o; use_invoke Hi; run_step; f_equal; store_eq.
Qed.

(** *** The three read operations that shape their reply *)

Lemma getRecord_connected (env : Env) (st : Store) (s : Signer) (c : Contract.t)
    (recordId : jsval) (r : ChainRecord) :
  connected env (contractAddress st) s c ->
  Contract.getRecord c recordId = Ok r ->
  getRecord env recordId st =
    (Ok (record_view r),
     extend st (handshake (contractAddress st) s ++ [EvCall "getRecord" [recordId]])).
Proof. intros Hc Hr; use_env. run_step. f_equal; store_eq. Qed.

Lemma getMyRecords_connected (env : Env) (st : Store) (s : Signer) (c : Contract.t)
    (rs : list ChainRecord) :
  connected env (contractAddress st) s c ->
  Contract.getMyRecords c = Ok rs ->
  getMyRecords env st =
    (Ok (JArray (imap my_view rs)),
     extend st (handshake (contractAddress st) s ++ [EvCall "getMyRecords" []])).
Proof. intros Hc Hr; use_env. run_step. f_equal; store_eq. Qed.

Lemma getAccessibleRecords_connected (env : Env) (st : Store) (s : Signer)
    (c : Contract.t) (rs : list ChainRecord) :
  connected env (contractAddress st) s c ->
  Contract.getAccessibleRecords c = Ok rs ->
  getAccessibleRecords env st =
    (Ok (JArray (imap accessible_view rs)),
     extend st (handshake (contractAddress st) s ++
                [EvCall "getAccessibleRecords" []])).
Proof. intros Hc Hr; use_env. run_step. f_equal; store_eq. Qed.

Lemma hasAccess_connected (env : Env) (st : Store) (s : Signer) (c : Contract.t)
    (recordId address v : jsval) :
  connected env (contractAddress st) s c ->
  Contract.hasAccess c recordId address = Ok v ->
  hasAccess env recordId address st =
    (Ok v,
     extend st (handshake (contractAddress st) s ++
                [EvCall "hasAccess" [recordId; address]])).
Proof. intros Hc Hr; use_env. run_step. f_equal; store_eq. Qed.

Lemma link_cases (env : Env) (addr : string) : link env addr.
Proof.
  destruct (window env) as [w|] eqn:Hw.
  2:{ eapply (link_down _ _ _ []).
      - intros o. by apply raised_no_window.
      - intros o st _. by apply run_no_window.
      - constructor.
      - intros s c Hc. use_env. congruence. }
  destruct (ethereum w) as [eth|] eqn:He.
  2:{ eapply (link_down _ _ _ []).
      - intros o. by eapply raised_no_wallet.
      - intros o st _. by eapply run_no_wallet.
      - constructor.
      - intros s c Hc. use_env. congruence. }
  assert (Hwal : wallet env eth) by (by exists w).
  destruct (request eth "eth_requestAccounts") as [v|e] eqn:Hr.
  2:{ eapply (link_down _ _ _ [account_request]).
      - intros o. by eapply raised_request.
      - intros o st _. by eapply run_rejected.
      - by repeat constructor.
      - intros s c Hc. use_env. congruence. }
  destruct (Web3Provider env eth) as [p|e] eqn:Hp.
  2:{ eapply (link_down _ _ _ [account_request; EvWeb3Provider]).
      - intros o. by eapply raised_provider.
      - intros o st _. by eapply run_provider_throws.
      - by repeat constructor.
      - intros s c Hc. use_env. congruence. }
  assert (Hs : signer_obtained env (getSigner p)) by (by exists eth, v, p).
  destruct (decide (addr = "")) as [Ha|Ha].
  { eapply (link_down _ _ _ [account_request; EvWeb3Provider; EvGetSigner]).
    - intros o. by eapply raised_unset.
    - intros o st Hst. eapply run_unset; [done | congruence].
    - by repeat constructor.
    - intros s c (_ & Hne & _). done. }
  destruct (ethers_Contract env addr (getSigner p)) as [c|e] eqn:Hc.
  - by apply (link_up _ _ (getSigner p) c).
  - eapply (link_down _ _ _ (handshake addr (getSigner p))).
    + intros o. by eapply raised_handle.
    + intros o st Hst. subst addr. by eapply run_handle_throws.
    + by repeat constructor.
    + intros s c' Hc'. use_env. congruence.
Qed.

(** A reply that is not a transaction is shaped and returned at once. *)
Lemma run_reply (env : Env) (o : operation) (st : Store)
    (s : Signer) (c : Contract.t) (r : reply) :
  connected env (contractAddress st) s c ->
  invoke c o = Ok r ->
  (forall tx, r <> ReplyTx tx) ->
  exists v,
    run env o st =
      (Ok (RValue v),
       extend st (handshake (contractAddress st) s ++ [invocation o])).
Proof.
  intros Hc Hi Hr; use_env.
  destruct o; use_invoke Hi; try (by edestruct Hr);
    eexists; run_step; f_equal; store_eq.
Qed.

(** Once a handle is built the contract method is invoked, exactly once,
    right after the handshake. *)
Lemma run_connected_shape (env : Env) (o : operation) (st : Store)
    (s : Signer) (c : Contract.t) :
  connected env (contractAddress st) s c ->
  exists out post,
    run env o st =
      (out, extend st (handshake (contractAddress st) s ++ invocation o :: post)) /\
    Forall (fun ev => is_call ev = false) post /\
    NoDup (handshake (contractAddress st) s ++ invocation o :: post) /\
    (forall e, out = Throw e ->
       raised env (contractAddress st) o e /\
       last (invocation o :: post) = Some (EvConsoleError (label o) e)).
Proof.
  intros Hc.
  assert (Hnd : forall post,
    NoDup post ->
    Forall (fun ev => (exists h, ev = EvWait h) \/ exists l x, ev = EvConsoleError l x) post ->
    NoDup (handshake (contractAddress st) s ++ invocation o :: post)).
  { intros post Hp Hn. unfold handshake, invocation, account_request.
    cbn [app]. rewrite Forall_forall in Hn.
    repeat (apply NoDup_cons; split;
            [rewrite ?elem_of_cons; intros Hin;
             repeat (destruct Hin as [Hin|Hin]; [discriminate|]);
             destruct (Hn _ Hin) as [(? & Hx)|(? & ? & Hx)]; discriminate
            |]).
    done. }
  destruct (invoke c o) as [r|e] eqn:Hi.
  - destruct r as [tx| v | r | rs].
    + destruct (tx_wait tx) as [v|e] eqn:Hw.
      * exists (Ok (RTx tx)), [EvWait (tx_hash tx)]. split; [|split; [|split]].
        -- by eapply run_tx_mined.
        -- by repeat constructor.
        -- apply Hnd; [apply NoDup_singleton |].
           constructor; [left; eauto | constructor].
        -- intros e' He'. discriminate.
      * exists (Throw e), [EvWait (tx_hash tx); EvConsoleError (label o) e].
        split; [|split; [|split]].
        -- by eapply run_wait_throws.
        -- by repeat constructor.
        -- apply Hnd.
           ++ apply NoDup_cons. split; [|apply NoDup_singleton].
              rewrite elem_of_cons, elem_of_nil. intros [Hx|[]]. discriminate.
           ++ constructor; [left; eauto |].
              constructor; [right; eauto | constructor].
        -- intros e' He'. simplify_eq. split; [|done]. by eapply raised_wait.
    + exists (Ok (RValue v)), []. split; [|split; [|split]].
      * by eapply run_value.
      * constructor.
      * apply Hnd; constructor.
      * intros e' He'. discriminate.
    + destruct (run_reply env o st s c (ReplyRecord r)) as (v & Hv); [done..|].
      exists (Ok (RValue v)), []. split; [done|split; [|split]].
      * constructor.
      * apply Hnd; constructor.
      * intros e' He'. discriminate.
    + destruct (run_reply env o st s c (ReplyRecords rs)) as (v & Hv); [done..|].
      exists (Ok (RValue v)), []. split; [done|split; [|split]].
      * constructor.
      * apply Hnd; constructor.
      * intros e' He'. discriminate.
  - exists (Throw e), [EvConsoleError (label o) e]. split; [|split; [|split]].
    + by eapply run_call_throws.
    + by repeat constructor.
    + apply Hnd; [apply NoDup_singleton |].
      constructor; [right; eauto | constructor].
    + intros e' He'. simplify_eq. split; [|done]. by eapply raised_call.
Qed.

Ltac distinct_events :=
  repeat (apply NoDup_cons; split;
          [rewrite ?elem_of_cons, ?elem_of_nil; intros Hin;
           repeat (destruct Hin as [Hin|Hin]; [discriminate|]); done |]);
  apply NoDup_nil; done.

(** Every operation leaves the address and the storage as they were and
    only adds to the trace. *)
Lemma run_extends (env : Env) (o : operation) (st : Store) :
  exists evs, snd (run env o st) = extend st evs.
Proof.
  destruct (link_cases env (contractAddress st)) as [s c Hc | e evs _ Hrun _ _].
  - destruct (run_connected_shape env o st s c Hc) as (out & post & Hrun & _).
    rewrite Hrun. by eexists.
  - rewrite (Hrun o st eq_refl). by eexists.
Qed.

Lemma run_contractAddress (env : Env) (o : operation) (st : Store) :
  contractAddress (snd (run env o st)) = contractAddress st.
Proof. destruct (run_extends env o st) as (evs & ->). done. Qed.

(** A failing step makes the operation reject with the error of that step,
    logged once, after interactions that are pairwise distinct. *)
Lemma raised_run (env : Env) (o : operation) (st : Store) (e : jsval) :
  raised env (contractAddress st) o e ->
  exists evs,
    run env o st = (Throw e, extend st (evs ++ [EvConsoleError (label o) e])) /\
    NoDup (evs ++ [EvConsoleError (label o) e]).
Proof.
  intros Hr. inversion Hr; subst.
  - exists []. split; [by apply run_no_window | distinct_events].
  - exists []. split; [by eapply run_no_wallet | distinct_events].
  - exists [account_request]. split; [by eapply run_rejected | distinct_events].
  - exists [account_request; EvWeb3Provider].
    split; [by eapply run_provider_throws | distinct_events].
  - exists [account_request; EvWeb3Provider; EvGetSigner].
    split; [by eapply run_unset | distinct_events].
  - exists (handshake (contractAddress st) s).
    split; [by eapply run_handle_throws | distinct_events].
  - exists (handshake (contractAddress st) s ++ [invocation o]).
    split; [|distinct_events].
    rewrite <- app_assoc. by eapply run_call_throws.
  - exists (handshake (contractAddress st) s ++ [invocation o; EvWait (tx_hash tx)]).
    split; [|distinct_events].
    rewrite <- app_assoc. by eapply run_wait_throws.
Qed.

(** Conversely a rejection always carries the error of a failing step. *)
Lemma rejection_raised (env : Env) (o : operation) (st : Store) (e : jsval) :
  fst (run env o st) = Throw e -> raised env (contractAddress st) o e.
Proof.
  intros He.
  destruct (link_cases env (contractAddress st)) as [s c Hc | e' evs Hr Hrun _ _].
  - destruct (run_connected_shape env o st s c Hc) as (out & post & Hrun & _ & _ & Hout).
    rewrite Hrun in He. cbn in He. by apply Hout.
  - rewrite (Hrun o st eq_refl) in He. cbn in He. by simplify_eq.
Qed.

Lemma run_all_contractAddress (calls : list (Env * operation)) (st : Store) :
  contractAddress (run_all calls st) = contractAddress st.
Proof.
  revert st. induction calls as [|[env o] rest IH]; intros st; [done|].
  cbn. rewrite IH. apply run_contractAddress.
Qed.

(** An operation that invokes a contract method went through a handshake
    of its own, with the address of the store it started from. *)
Lemma call_needs_connection (env : Env) (o : operation) (st : Store)
    (m : string) (args : list jsval) :
  EvCall m args ∈ issued (run env o) st ->
  exists s c post,
    connected env (contractAddress st) s c /\
    EvCall m args = invocation o /\
    issued (run env o) st = handshake (contractAddress st) s ++ invocation o :: post /\
    Forall (fun ev => is_call ev = false) post.
Proof.
  intros Hin.
  destruct (link_cases env (contractAddress st)) as [s c Hc | e evs _ Hrun Hevs _].
  - destruct (run_connected_shape env o st s c Hc) as (out & post & Hrun & Hpost & _).
    apply issued_extend in Hrun. exists s, c, post.
    split; [done|]. split; [|done].
    rewrite Hrun in Hin. unfold handshake, account_request in Hin. cbn [app] in Hin.
    rewrite !elem_of_cons in Hin.
    destruct Hin as [Hin|[Hin|[Hin|[Hin|[Hin|Hin]]]]]; try discriminate; [done|].
    rewrite Forall_forall in Hpost. specialize (Hpost _ Hin). discriminate.
  - specialize (Hrun o st eq_refl). apply issued_extend in Hrun.
    rewrite Hrun in Hin. apply elem_of_app in Hin as [Hin|Hin].
    + rewrite Forall_forall in Hevs. specialize (Hevs _ Hin). discriminate.
    + rewrite elem_of_cons, elem_of_nil in Hin. destruct Hin as [Hin|[]]. discriminate.
Qed.

Lemma setContractAddress_browser (env : Env) (a : string) (st : Store) (w : Window) :
  window env = Some w ->
  setContractAddress env a st =
    (Ok tt,
     {| contractAddress := a;
        localStorage := <[storage_key := a]> (localStorage st);
        trace := trace st ++ [EvSetItem storage_key a] |}).
Proof.
  intros Hw. unfold setContractAddress, localStorage_setItem, write_contractAddress, bind.
  rewrite Hw. reflexivity.
Qed.

Lemma initContractAddress_browser (env : Env) (st : Store) (w : Window) :
  window env = Some w ->
  contractAddress (snd (initContractAddress env st)) =
    match localStorage st !! storage_key with
    | Some a => if truthy a then a else contractAddress st
    | None => contractAddress st
    end.
Proof.
  intros Hw. unfold initContractAddress, localStorage_getItem, write_contractAddress, bind, ret.
  rewrite Hw. cbn.
  destruct (localStorage st !! storage_key) as [a|]; [|done].
  by destruct (truthy a).
Qed.

(** *** Integers up to [MAX_SAFE_INTEGER] are numbers *)

Lemma digits2_pos_size (p : positive) : digits2_pos p = Pos.size p.
Proof. induction p; cbn; congruence. Qed.

Lemma digits2_pos_iter (p k : positive) :
  digits2_pos (Pos.iter xO p k) = (digits2_pos p + k)%positive.
Proof.
  induction k using Pos.peano_ind.
  - cbn. lia.
  - rewrite Pos.iter_succ. cbn. rewrite IHk. lia.
Qed.

Lemma digits2_pos_safe (p : positive) :
  (Zpos p <= MAX_SAFE_INTEGER)%Z -> (Zpos (digits2_pos p) <= 53)%Z.
Proof.
  intros Hp. rewrite digits2_pos_size.
  pose proof (Pos.size_le p) as Hle.
  apply Pos2Z.pos_le_pos in Hle. rewrite Pos2Z.inj_pow in Hle.
  destruct (Z_le_gt_dec (Zpos (Pos.size p)) 53) as [|Hgt]; [done|].
  exfalso.
  assert (H54 : (2 ^ 54 <= 2 ^ Zpos (Pos.size p))%Z)
    by (apply Z.pow_le_mono_r; lia).
  unfold MAX_SAFE_INTEGER in Hp.
  change (2 ^ 54)%Z with 18014398509481984%Z in H54. lia.
Qed.

(** A mantissa of 53 bits within the exponent range is kept as it is. *)
Lemma binary_round_aux_canonical (s : bool) (m : positive) (e : Z) :
  Zpos (digits2_pos m) = 53%Z -> (-1074 <= e <= 971)%Z ->
  binary_round_aux 53 1024 s (Zpos m) e loc_Exact = S754_finite s m e.
Proof.
  intros Hd He.
  unfold binary_round_aux, shr_fexp, fexp, emin, Zdigits2.
  rewrite Hd.
  replace (Z.max (53 + e - 53) (3 - 1024 - 53) - e)%Z with 0%Z by lia.
  cbn [shr shr_record_of_loc shr_m loc_of_shr_record round_nearest_even Zdigits2].
  rewrite Hd.
  replace (Z.max (53 + e - 53) (3 - 1024 - 53) - e)%Z with 0%Z by lia.
  cbn [shr shr_record_of_loc shr_m].
  destruct (e <=? 1024 - 53)%Z eqn:Hle; [reflexivity|].
  apply Z.leb_gt in Hle. lia.
Qed.

Lemma binary_round_safe (s : bool) (p : positive) :
  (Zpos p <= MAX_SAFE_INTEGER)%Z ->
  float_int (binary_round 53 1024 s p 0) = Some (cond_Zopp s (Zpos p)).
Proof.
  intros Hp. pose proof (digits2_pos_safe p Hp) as Hd.
  unfold binary_round, shl_align, fexp, emin.
  replace (Z.max (Zpos (digits2_pos p) + 0 - 53) (3 - 1024 - 53) - 0)%Z
    with (Zpos (digits2_pos p) - 53)%Z by lia.
  replace (Z.max (Zpos (digits2_pos p) + 0 - 53) (3 - 1024 - 53))%Z
    with (Zpos (digits2_pos p) - 53)%Z by lia.
  destruct (Zpos (digits2_pos p) - 53)%Z as [|k|k] eqn:Hk; [| lia |].
  - rewrite binary_round_aux_canonical by lia.
    cbn. f_equal. f_equal. lia.
  - rewrite binary_round_aux_canonical.
    2:{ rewrite digits2_pos_iter. lia. }
    2:{ lia. }
    unfold float_int.
    change (Pos.iter xO p k) with (Zpower.shift_pos k p).
    rewrite Zpower.shift_pos_correct, Z.pow_pos_fold.
    change (0 <=? Z.neg k)%Z with false. cbn [Z.opp].
    rewrite Z.mul_comm, Z_mod_mult, Z_div_mult by lia.
    reflexivity.
Qed.

Lemma Z2F_exact (n : Z) :
  (- MAX_SAFE_INTEGER <= n <= MAX_SAFE_INTEGER)%Z -> float_int (Z2F n) = Some n.
Proof.
  intros Hn. destruct n as [|p|p]; [reflexivity| |].
  - apply (binary_round_safe false). lia.
  - apply (binary_round_safe true). lia.
Qed.

(** *** What a resolved listing looks like *)




(** Position [i] of a mapped listing carries [i] as its [id]. *)
Lemma imap_id_at (view : nat -> ChainRecord -> jsval) (rs : list ChainRecord) :
  (forall i r, get_field "id" (view i r) = JNumber (Z2F (Z.of_nat i))) ->
  length (imap view rs) = length rs /\
  forall i, i < length rs ->
    exists el,
      imap view rs !! i = Some el /\
      get_field "id" el = JNumber (Z2F (Z.of_nat i)) /\
      ((Z.of_nat i <= MAX_SAFE_INTEGER)%Z ->
         number_int (get_field "id" el) = Some (Z.of_nat i)).
Proof.
  intros Hview. split; [apply length_imap|].
  intros i Hi. destruct (lookup_lt_is_Some_2 rs i Hi) as [r Hr].
  exists (view i r). rewrite list_lookup_imap, Hr. split; [done|].
  split; [apply Hview|].
  intros Hsafe. rewrite Hview. cbn. apply Z2F_exact.
  unfold MAX_SAFE_INTEGER in *. lia.
Qed.

(** * The claims *)

(** C1 (as worded, refuted): with an unset address and a wallet that grants
    the request, [getMyRecords] does fail with the configuration error, but
    only after the account request went to the wallet; and with no wallet
    installed the failure is not the configuration error at all. *)
Lemma unset_address_counterexample :
  contractAddress Demo.unset = "" /\
  ~ fails_without_network (Demo.browser (Some Demo.granting) None) OpGetMyRecords Demo.unset /\
  issued (run (Demo.browser (Some Demo.granting) None) OpGetMyRecords) Demo.unset =
    [account_request; EvWeb3Provider; EvGetSigner;
     EvConsoleError "Error getting my records:" configuration_error] /\
  ~ fails_without_network (Demo.browser None None) OpGetMyRecords Demo.unset.
Proof.
  split; [reflexivity|]. split; [|split].
  - intros [_ Hnet]. vm_compute in Hnet.
    inversion Hnet as [|? ? Hreq _]. discriminate Hreq.
  - reflexivity.
  - intros [Herr _]. vm_compute in Herr. discriminate Herr.
Qed.

(** C1 (amended): with an unset address every record operation fails; no
    contract handle is built and no contract method is invoked.  The address
    is only looked at after the wallet step: when a wallet is installed the
    account request is issued first, and when that step yields a signer the
    failure is the configuration error.  Otherwise the failure is the error
    of the wallet step: the [ReferenceError] where there is no window, the
    missing-wallet error where none is injected, the wallet's own error when
    it rejects the request, the constructor's error when no provider can be
    built. *)
Theorem unset_address_fails_after_wallet_step
    (env : Env) (o : operation) (st : Store) :
  contractAddress st = "" ->
  (exists e, fst (run env o st) = Throw e) /\
  (forall ev, ev ∈ issued (run env o) st ->
     is_call ev = false /\ forall a s, ev <> EvContract a s) /\
  (forall eth, wallet env eth ->
     head (issued (run env o) st) = Some account_request) /\
  (forall s, signer_obtained env s ->
     fst (run env o st) = Throw configuration_error /\
     issued (run env o) st =
       [account_request; EvWeb3Provider; EvGetSigner;
        EvConsoleError (label o) configuration_error]) /\
  (window env = None ->
     let e := JError "ReferenceError" "window is not defined" in
     fst (run env o st) = Throw e /\
     issued (run env o) st = [EvConsoleError (label o) e]) /\
  (forall w, window env = Some w -> ethereum w = None ->
     fst (run env o st) = Throw wallet_missing_error /\
     issued (run env o) st = [EvConsoleError (label o) wallet_missing_error]) /\
  (forall eth e, wallet env eth ->
     request eth "eth_requestAccounts" = Throw e ->
     fst (run env o st) = Throw e /\
     issued (run env o) st = [account_request; EvConsoleError (label o) e]) /\
  (forall eth v e, wallet env eth ->
     request eth "eth_requestAccounts" = Ok v ->
     Web3Provider env eth = Throw e ->
     fst (run env o st) = Throw e /\
     issued (run env o) st =
       [account_request; EvWeb3Provider; EvConsoleError (label o) e]).
Proof.
  intros Ha.
  assert (Hstep : forall e evs,
    run env o st = (Throw e, extend st evs) ->
    fst (run env o st) = Throw e /\ issued (run env o) st = evs).
  { intros e evs Hrun. by rewrite (issued_extend _ _ _ _ Hrun), Hrun. }
  assert (Hwallet_step :
    (window env = None ->
       let e := JError "ReferenceError" "window is not defined" in
       fst (run env o st) = Throw e /\
       issued (run env o) st = [EvConsoleError (label o) e]) /\
    (forall w, window env = Some w -> ethereum w = None ->
       fst (run env o st) = Throw wallet_missing_error /\
       issued (run env o) st = [EvConsoleError (label o) wallet_missing_error]) /\
    (forall eth e, wallet env eth ->
       request eth "eth_requestAccounts" = Throw e ->
       fst (run env o st) = Throw e /\
       issued (run env o) st = [account_request; EvConsoleError (label o) e]) /\
    (forall eth v e, wallet env eth ->
       request eth "eth_requestAccounts" = Ok v ->
       Web3Provider env eth = Throw e ->
       fst (run env o st) = Throw e /\
       issued (run env o) st =
         [account_request; EvWeb3Provider; EvConsoleError (label o) e])).
  { split; [|split; [|split]].
    - intros Hw. apply Hstep. by apply run_no_window.
    - intros w Hw He. apply Hstep. by eapply run_no_wallet.
    - intros eth e Hwal Hr. apply Hstep. by eapply run_rejected.
    - intros eth v e Hwal Hr Hp. apply Hstep. by eapply run_provider_throws. }
  cut ((exists e, fst (run env o st) = Throw e) /\
       (forall ev, ev ∈ issued (run env o) st ->
          is_call ev = false /\ forall a s, ev <> EvContract a s) /\
       (forall eth, wallet env eth ->
          head (issued (run env o) st) = Some account_request) /\
       (forall s, signer_obtained env s ->
          fst (run env o st) = Throw configuration_error /\
          issued (run env o) st =
            [account_request; EvWeb3Provider; EvGetSigner;
             EvConsoleError (label o) configuration_error])).
  { intros (H1 & H2 & H3 & H4). by repeat (split; [done|]). }
  clear Hstep Hwallet_step.
  assert (Hgoal : forall e evs,
    run env o st = (Throw e, extend st evs) ->
    Forall (fun ev => is_call ev = false /\ forall a s, ev <> EvContract a s) evs ->
    ((exists eth, wallet env eth) -> head evs = Some account_request) ->
    ((exists s, signer_obtained env s) ->
       e = configuration_error /\
       evs = [account_request; EvWeb3Provider; EvGetSigner;
              EvConsoleError (label o) configuration_error]) ->
    (exists e, fst (run env o st) = Throw e) /\
    (forall ev, ev ∈ issued (run env o) st ->
       is_call ev = false /\ forall a s, ev <> EvContract a s) /\
    (forall eth, wallet env eth ->
       head (issued (run env o) st) = Some account_request) /\
    (forall s, signer_obtained env s ->
       fst (run env o st) = Throw configuration_error /\
       issued (run env o) st =
         [account_request; EvWeb3Provider; EvGetSigner;
          EvConsoleError (label o) configuration_error])).
  { intros e evs Hrun Hall Hhead Hcfg.
    rewrite (issued_extend _ _ _ _ Hrun), Hrun. cbn [fst].
    split; [by eexists|]. split; [by apply Forall_forall|].
    split; [intros eth Heth; apply Hhead; by eexists|].
    intros s Hs. destruct Hcfg as [-> ->]; [by eexists|]. done. }
  destruct (window env) as [w|] eqn:Hw.
  2:{ eapply Hgoal; [by apply run_no_window | | |].
      - by repeat constructor.
      - intros (eth & Hwal). use_env. congruence.
      - intros (s & Hs). use_env. congruence. }
  destruct (ethereum w) as [eth|] eqn:He.
  2:{ eapply Hgoal; [by eapply run_no_wallet | | |].
      - by repeat constructor.
      - intros (eth & Hwal). use_env. congruence.
      - intros (s & Hs). use_env. congruence. }
  assert (Hwal : wallet env eth) by (by exists w).
  destruct (request eth "eth_requestAccounts") as [v|e] eqn:Hr.
  2:{ eapply Hgoal; [by eapply run_rejected | | |].
      - by repeat constructor.
      - done.
      - intros (s & Hs). use_env. congruence. }
  destruct (Web3Provider env eth) as [p|e] eqn:Hp.
  2:{ eapply Hgoal; [by eapply run_provider_throws | | |].
      - by repeat constructor.
      - done.
      - intros (s & Hs). use_env. congruence. }
  eapply Hgoal; [eapply (run_unset _ _ _ (getSigner p)); [by exists eth, v, p | done] | | |].
  - by repeat constructor.
  - done.
  - done.
Qed.

Lemma unset_address_fails_after_wallet_step_witness :
  contractAddress Demo.unset = "" /\
  fst (run (Demo.browser (Some Demo.granting) None) (OpHasAccess JNull JNull) Demo.unset)
    = Throw configuration_error.
Proof.
  split; [reflexivity|].
  destruct (unset_address_fails_after_wallet_step
              (Demo.browser (Some Demo.granting) None)
              (OpHasAccess JNull JNull) Demo.unset eq_refl)
    as (_ & _ & _ & Hcfg & _).
  apply (Hcfg Demo.patient).
  exists Demo.granting, (JArray [JString "0xPATIENT"]), {| getSigner := Demo.patient |}.
  split; [|split; [|split]]; try reflexivity.
  exists {| ethereum := Some Demo.granting |}. split; reflexivity.
Defined.

(** C2: when the wallet rejects the account request, every record operation
    rejects with the wallet's own error, and the call invokes no contract
    method (it does not even build a handle). *)
Theorem rejected_prompt_propagates
    (env : Env) (o : operation) (st : Store) (eth : Ethereum) (e : jsval) :
  wallet env eth ->
  request eth "eth_requestAccounts" = Throw e ->
  fst (run env o st) = Throw e /\
  issued (run env o) st = [account_request; EvConsoleError (label o) e] /\
  (forall m args, EvCall m args ∉ issued (run env o) st).
Proof.
  intros Hw Hr.
  pose proof (run_rejected env o st eth e Hw Hr) as Hrun.
  rewrite (issued_extend _ _ _ _ Hrun), Hrun.
  split; [done|]. split; [done|].
  intros m args Hin. rewrite !elem_of_cons, elem_of_nil in Hin.
  destruct Hin as [Hin|[Hin|[]]]; discriminate.
Qed.

Lemma rejected_prompt_propagates_witness :
  fst (run (Demo.browser (Some Demo.rejecting) None)
           (OpAddRecord (JString "Qm123") (JString "xray") (JNumber (Z2F 2048)))
           Demo.deployed)
    = Throw Demo.user_rejected.
Proof.
  refine (proj1 (rejected_prompt_propagates
                   (Demo.browser (Some Demo.rejecting) None)
                   (OpAddRecord (JString "Qm123") (JString "xray") (JNumber (Z2F 2048)))
                   Demo.deployed Demo.rejecting Demo.user_rejected _ _)).
  - exists {| ethereum := Some Demo.rejecting |}. split; reflexivity.
  - reflexivity.
Defined.

(** C3: an operation rejects with [e] exactly when [e] is the error of its
    first failing step (no window, no wallet, rejected prompt, provider or
    handle construction, unset address, contract call, confirmation); the
    failed call leaves the contract address and the storage as they were,
    logs that same error last, and made no interaction twice. *)
Theorem failures_propagate_unchanged
    (env : Env) (o : operation) (st : Store) (e : jsval) :
  (raised env (contractAddress st) o e <-> fst (run env o st) = Throw e) /\
  (fst (run env o st) = Throw e ->
     contractAddress (snd (run env o st)) = contractAddress st /\
     localStorage (snd (run env o st)) = localStorage st /\
     last (issued (run env o) st) = Some (EvConsoleError (label o) e) /\
     NoDup (issued (run env o) st)).
Proof.
  assert (Hfwd : raised env (contractAddress st) o e -> fst (run env o st) = Throw e).
  { intros Hr. destruct (raised_run env o st e Hr) as (evs & -> & _). done. }
  split; [split; [done | apply rejection_raised]|].
  intros He. apply rejection_raised in He.
  destruct (raised_run env o st e He) as (evs & Hrun & Hnd).
  rewrite (issued_extend _ _ _ _ Hrun), Hrun. cbn [snd].
  repeat split; try done. apply last_snoc.
Qed.

Lemma failures_propagate_unchanged_witness :
  fst (run (Demo.browser (Some Demo.granting) None)
           (OpRevokeAccess (JNumber (Z2F 0)) (JString "0xDOC")) Demo.deployed)
    = Throw (new_Error "execution reverted") /\
  contractAddress
    (snd (run (Demo.browser (Some Demo.granting) None)
              (OpRevokeAccess (JNumber (Z2F 0)) (JString "0xDOC")) Demo.deployed))
    = "0xABC".
Proof.
  destruct (failures_propagate_unchanged
              (Demo.browser (Some Demo.granting) None)
              (OpRevokeAccess (JNumber (Z2F 0)) (JString "0xDOC"))
              Demo.deployed (new_Error "execution reverted")) as [Hiff Hkeep].
  assert (Hr : raised (Demo.browser (Some Demo.granting) None) "0xABC"
                 (OpRevokeAccess (JNumber (Z2F 0)) (JString "0xDOC"))
                 (new_Error "execution reverted")).
  { apply (raised_call _ _ _ Demo.patient Demo.contract); [|reflexivity].
    split; [|split; [discriminate | reflexivity]].
    exists Demo.granting, (JArray [JString "0xPATIENT"]), {| getSigner := Demo.patient |}.
    split; [|split; [|split]]; try reflexivity.
    exists {| ethereum := Some Demo.granting |}. split; reflexivity. }
  split; [exact (proj1 Hiff Hr) | exact (proj1 (Hkeep (proj1 Hiff Hr)))].
Defined.

(** C4 (as worded, refuted): on a page built with the default address
    ["0xDEF"], setting the empty string and reloading does not restore the
    empty string; the new session keeps its default. *)
Lemma round_trip_counterexample :
  restored (Demo.browser None (Some "0xDEF")) "" Demo.deployed = "0xDEF" /\
  restored (Demo.browser None (Some "0xDEF")) "" Demo.deployed <> "".
Proof. split; [reflexivity | discriminate]. Qed.

(** C4 (amended): in the browser, for every non-empty address [a],
    [setContractAddress a] followed in a fresh session by
    [initContractAddress] restores [a]; after [setContractAddress ""] the
    fresh session keeps its startup default. *)
Theorem persisted_address_round_trip
    (env : Env) (a : string) (st : Store) (w : Window) :
  window env = Some w ->
  (a <> "" -> restored env a st = a) /\
  (a = "" -> restored env a st = or_empty (NEXT_PUBLIC_CONTRACT_ADDRESS env)).
Proof.
  intros Hw. unfold restored.
  rewrite (initContractAddress_browser env _ w Hw).
  rewrite (setContractAddress_browser env a st w Hw).
  unfold fresh_session, startup. cbn [snd localStorage contractAddress].
  rewrite lookup_insert_eq.
  split; intros Ha.
  - apply truthy_nonempty in Ha. by rewrite Ha.
  - apply truthy_empty in Ha. by rewrite Ha.
Qed.

Lemma persisted_address_round_trip_witness :
  restored (Demo.browser (Some Demo.granting) (Some "0xDEF")) "0xABC" Demo.unset = "0xABC".
Proof.
  refine (proj1 (persisted_address_round_trip
                   (Demo.browser (Some Demo.granting) (Some "0xDEF")) "0xABC" Demo.unset
                   {| ethereum := Some Demo.granting |} eq_refl) _).
  discriminate.
Defined.

(** C5: whatever records the contract returns, [getMyRecords] and
    [getAccessibleRecords] return as many elements, and the element at
    position [i] has [id] [i]; a contract returning the one record
    [{ipfsHash:"Qm123", timestamp:1000, recordType:"xray", size:2048}]
    makes [getMyRecords] yield
    [[{id:0, ipfsHash:"Qm123", timestamp:1000, recordType:"xray", size:2048}]]. *)
Theorem listing_ids_are_positions
    (env : Env) (st : Store) (s : Signer) (c : Contract.t) :
  connected env (contractAddress st) s c ->
  (forall rs, Contract.getMyRecords c = Ok rs ->
     exists out,
       fst (getMyRecords env st) = Ok (JArray out) /\
       length out = length rs /\
       forall i, i < length rs ->
         exists el,
           out !! i = Some el /\
           get_field "id" el = JNumber (Z2F (Z.of_nat i)) /\
           ((Z.of_nat i <= MAX_SAFE_INTEGER)%Z ->
              number_int (get_field "id" el) = Some (Z.of_nat i))) /\
  (forall rs, Contract.getAccessibleRecords c = Ok rs ->
     exists out,
       fst (getAccessibleRecords env st) = Ok (JArray out) /\
       length out = length rs /\
       forall i, i < length rs ->
         exists el,
           out !! i = Some el /\
           get_field "id" el = JNumber (Z2F (Z.of_nat i)) /\
           ((Z.of_nat i <= MAX_SAFE_INTEGER)%Z ->
              number_int (get_field "id" el) = Some (Z.of_nat i))) /\
  (Contract.getMyRecords c = Ok [Demo.xray] ->
     fst (getMyRecords env st) =
       Ok (JArray
             [JObject
                [("id", JNumber (Z2F 0));
                 ("ipfsHash", JString "Qm123");
                 ("timestamp", JNumber (Z2F 1000));
                 ("recordType", JString "xray");
                 ("size", JNumber (Z2F 2048))]])).
Proof.
  intros Hc. split; [|split].
  - intros rs Hrs. exists (imap my_view rs).
    rewrite (getMyRecords_connected env st s c rs Hc Hrs).
    split; [done|]. by apply imap_id_at.
  - intros rs Hrs. exists (imap accessible_view rs).
    rewrite (getAccessibleRecords_connected env st s c rs Hc Hrs).
    split; [done|]. by apply imap_id_at.
  - intros Hrs. by rewrite (getMyRecords_connected env st s c _ Hc Hrs).
Qed.

Lemma listing_ids_are_positions_witness :
  fst (getMyRecords (Demo.browser (Some Demo.granting) None)
         (snd (setContractAddress (Demo.browser (Some Demo.granting) None) "0xABC"
                 (startup (Demo.browser (Some Demo.granting) None) ∅)))) =
    Ok (JArray
          [JObject
             [("id", JNumber (S754_zero false));
              ("ipfsHash", JString "Qm123");
              ("timestamp", JNumber (S754_finite false 8796093022208000 (-43)));
              ("recordType", JString "xray");
              ("size", JNumber (S754_finite false 4503599627370496 (-41)))]]).
Proof.
  refine (proj2 (proj2 (listing_ids_are_positions
            (Demo.browser (Some Demo.granting) None)
            (snd (setContractAddress (Demo.browser (Some Demo.granting) None) "0xABC"
                    (startup (Demo.browser (Some Demo.granting) None) ∅)))
            Demo.patient Demo.contract _)) _).
  - split; [|split; [discriminate | reflexivity]].
    exists Demo.granting, (JArray [JString "0xPATIENT"]), {| getSigner := Demo.patient |}.
    split; [|split; [|split]]; try reflexivity.
    exists {| ethereum := Some Demo.granting |}. split; reflexivity.
  - reflexivity.
Defined.

(** C6: [getRecord] returns [timestamp] and [size] as plain numbers, the
    [Number] coercion of what the contract call decoded, also when that is a
    wide integer (kept exactly up to [MAX_SAFE_INTEGER]); [ipfsHash],
    [owner] and [recordType] are passed through as they are. *)
Theorem getRecord_coerces_numeric_fields
    (env : Env) (st : Store) (s : Signer) (c : Contract.t)
    (recordId : jsval) (r : ChainRecord) :
  connected env (contractAddress st) s c ->
  Contract.getRecord c recordId = Ok r ->
  exists out,
    fst (getRecord env recordId st) = Ok out /\
    get_field "timestamp" out = JNumber (Number (timestamp r)) /\
    get_field "size" out = JNumber (Number (size r)) /\
    typeof (get_field "timestamp" out) = "number" /\
    typeof (get_field "size" out) = "number" /\
    (forall n, timestamp r = NumWide n ->
       typeof (numeric_val (timestamp r)) <> "number" /\
       get_field "timestamp" out = JNumber (Z2F n) /\
       ((- MAX_SAFE_INTEGER <= n <= MAX_SAFE_INTEGER)%Z ->
          number_int (get_field "timestamp" out) = Some n)) /\
    (forall n, size r = NumWide n ->
       typeof (numeric_val (size r)) <> "number" /\
       get_field "size" out = JNumber (Z2F n) /\
       ((- MAX_SAFE_INTEGER <= n <= MAX_SAFE_INTEGER)%Z ->
          number_int (get_field "size" out) = Some n)) /\
    get_field "ipfsHash" out = ipfsHash r /\
    get_field "owner" out = owner r /\
    get_field "recordType" out = recordType r.
Proof.
  intros Hc Hr. exists (record_view r).
  rewrite (getRecord_connected env st s c recordId r Hc Hr).
  split; [done|]. do 4 (split; [done|]).
  split; [|split; [|done]].
  - intros n Hn. cbn. rewrite Hn. cbn.
    split; [discriminate|]. split; [done | apply Z2F_exact].
  - intros n Hn. cbn. rewrite Hn. cbn.
    split; [discriminate|]. split; [done | apply Z2F_exact].
Qed.

Lemma getRecord_coerces_numeric_fields_witness :
  exists out,
    fst (getRecord (Demo.browser (Some Demo.granting) None) (JNumber (Z2F 0)) Demo.deployed)
      = Ok out /\
    number_int (get_field "timestamp" out) = Some 1700000000%Z /\
    get_field "owner" out = JString "0xPATIENT".
Proof.
  destruct (getRecord_coerces_numeric_fields
              (Demo.browser (Some Demo.granting) None) Demo.deployed
              Demo.patient Demo.contract (JNumber (Z2F 0)) Demo.scan)
    as (out & Hout & _ & _ & _ & _ & Hts & _ & _ & Hown & _).
  - split; [|split; [discriminate | reflexivity]].
    exists Demo.granting, (JArray [JString "0xPATIENT"]), {| getSigner := Demo.patient |}.
    split; [|split; [|split]]; try reflexivity.
    exists {| ethereum := Some Demo.granting |}. split; reflexivity.
  - reflexivity.
  - exists out. split; [exact Hout|]. split; [|exact Hown].
    destruct (Hts 1700000000%Z eq_refl) as (_ & _ & Hint).
    apply Hint. unfold MAX_SAFE_INTEGER. lia.
Defined.

(** C7: whatever calls came before, an operation invokes a contract method
    only when, in this very call, the address is non-empty, the wallet
    granted the request and a signer and a handle for that address were
    obtained: the call's own interactions are that handshake, then the one
    invocation.  Nothing of an earlier call's connection is reused. *)
Theorem calls_require_address_and_fresh_signer
    (history : list (Env * operation)) (env : Env) (o : operation)
    (st : Store) (m : string) (args : list jsval) :
  EvCall m args ∈ issued (run env o) (run_all history st) ->
  contractAddress st <> "" /\
  exists s c post,
    connected env (contractAddress st) s c /\
    EvCall m args = invocation o /\
    issued (run env o) (run_all history st) =
      handshake (contractAddress st) s ++ invocation o :: post /\
    Forall (fun ev => is_call ev = false) post.
Proof.
  intros Hin. apply call_needs_connection in Hin.
  rewrite run_all_contractAddress in Hin.
  destruct Hin as (s & c & post & Hc & Hinv & Hiss & Hpost).
  split; [by destruct Hc as (_ & Hne & _)|].
  by exists s, c, post.
Qed.

Lemma calls_require_address_and_fresh_signer_witness :
  contractAddress Demo.deployed <> "" /\
  signer_obtained (Demo.browser (Some Demo.granting) None) Demo.patient.
Proof.
  destruct (calls_require_address_and_fresh_signer
              [(Demo.browser (Some Demo.rejecting) None, OpGetMyRecords);
               (Demo.browser (Some Demo.granting) None, OpGetAccessibleRecords)]
              (Demo.browser (Some Demo.granting) None)
              (OpHasAccess (JNumber (Z2F 0)) (JString "0xDOC"))
              Demo.deployed "hasAccess" [JNumber (Z2F 0); JString "0xDOC"])
    as (Hne & s & c & post & (Hs & _) & _).
  - match goal with
    | |- _ ∈ ?l => let l' := eval vm_compute in l in change l with l'
    end.
    rewrite !elem_of_cons. do 4 right. left. reflexivity.
  - split; [exact Hne|].
    destruct Hs as (eth & v & p & Hw & Hr & Hp & ->).
    exists eth, v, p. cbn in Hp. injection Hp as <-. done.
Defined.

(** C8: at startup the address is the environment's default, the empty
    string when there is none; [initContractAddress] changes it only to a
    persisted value that exists, and with nothing persisted it leaves the
    address, hence the default, as it is.  It never touches the storage. *)
Theorem startup_default_and_restore
    (env : Env) (persisted : gmap string string) (st : Store) :
  contractAddress (startup env persisted) =
    default "" (NEXT_PUBLIC_CONTRACT_ADDRESS env) /\
  (contractAddress (snd (initContractAddress env st)) <> contractAddress st ->
     window env <> None /\
     localStorage st !! storage_key =
       Some (contractAddress (snd (initContractAddress env st)))) /\
  (localStorage st !! storage_key = None ->
     contractAddress (snd (initContractAddress env st)) = contractAddress st) /\
  (persisted !! storage_key = None ->
     contractAddress (snd (initContractAddress env (startup env persisted))) =
       default "" (NEXT_PUBLIC_CONTRACT_ADDRESS env)) /\
  localStorage (snd (initContractAddress env st)) = localStorage st.
Proof.
  assert (Hstart : forall p, contractAddress (startup env p) =
                             default "" (NEXT_PUBLIC_CONTRACT_ADDRESS env)).
  { intros p. unfold startup, or_empty. cbn.
    destruct (NEXT_PUBLIC_CONTRACT_ADDRESS env) as [d|]; [|done].
    cbn. destruct (truthy d) eqn:Hd; [done|]. by apply truthy_empty in Hd. }
  assert (Hnone : forall s, localStorage s !! storage_key = None ->
                            contractAddress (snd (initContractAddress env s)) =
                            contractAddress s).
  { intros s Hs. unfold initContractAddress, localStorage_getItem, bind, ret.
    destruct (window env); [|done]. cbn. by rewrite Hs. }
  split; [done|]. split; [|split; [|split]].
  - unfold initContractAddress, localStorage_getItem, write_contractAddress, bind, ret.
    destruct (window env) as [w|]; [|done]. cbn.
    destruct (localStorage st !! storage_key) as [a|]; [|done].
    destruct (truthy a); [|done]. done.
  - apply Hnone.
  - intros Hp. rewrite Hnone; [apply Hstart | done].
  - unfold initContractAddress, localStorage_getItem, write_contractAddress, bind, ret.
    destruct (window env) as [w|]; [|done]. cbn.
    destruct (localStorage st !! storage_key) as [a|]; [|done].
    by destruct (truthy a).
Qed.

Lemma startup_default_and_restore_witness :
  contractAddress
    (snd (initContractAddress (Demo.browser None (Some "0xDEF"))
            (startup (Demo.browser None (Some "0xDEF")) ∅))) = "0xDEF".
Proof.
  refine (proj1 (proj2 (proj2 (proj2 (startup_default_and_restore
            (Demo.browser None (Some "0xDEF")) ∅ Demo.unset)))) _).
  reflexivity.
Defined.

(** C9: when the wallet and the contract call succeed, [hasAccess] resolves
    with exactly the value the contract's [hasAccess] method returned; the
    local constant named like the function changes nothing. *)
Theorem hasAccess_returns_contract_answer
    (env : Env) (st : Store) (s : Signer) (c : Contract.t)
    (recordId address answer : jsval) :
  connected env (contractAddress st) s c ->
  Contract.hasAccess c recordId address = Ok answer ->
  fst (hasAccess env recordId address st) = Ok answer.
Proof.
  intros Hc Ha. by rewrite (hasAccess_connected env st s c _ _ answer Hc Ha).
Qed.

Lemma hasAccess_returns_contract_answer_witness :
  fst (hasAccess (Demo.browser (Some Demo.granting) None)
         (JNumber (Z2F 0)) (JString "0xDOC") Demo.deployed) = Ok (JBool true).
Proof.
  apply (hasAccess_returns_contract_answer _ _ Demo.patient Demo.contract).
  - split; [|split; [discriminate | reflexivity]].
    exists Demo.granting, (JArray [JString "0xPATIENT"]), {| getSigner := Demo.patient |}.
    split; [|split; [|split]]; try reflexivity.
    exists {| ethereum := Some Demo.granting |}. split; reflexivity.
  - reflexivity.
Defined.



(** * Further properties of the module *)

(** ** Tools *)

Lemma invoke_write (c : Contract.t) (o : operation) (r : reply) :
  is_write o = true -> invoke c o = Ok r -> exists tx, r = ReplyTx tx.
Proof.
  intros Hw Hi. destruct o; try discriminate; use_invoke Hi; by eexists.
Qed.

Lemma invoke_read (c : Contract.t) (o : operation) (r : reply) :
  is_write o = false -> invoke c o = Ok r -> forall tx, r <> ReplyTx tx.
Proof.
  intros Hw Hi tx. destruct o; try discriminate; use_invoke Hi; discriminate.
Qed.

(** A reply that is no transaction is shaped and returned. *)
Lemma run_read_resolves (env : Env) (o : operation) (st : Store)
    (s : Signer) (c : Contract.t) (r : reply) :
  connected env (contractAddress st) s c ->
  invoke c o = Ok r ->
  (forall tx, r <> ReplyTx tx) ->
  run env o st =
    (Ok (shape o r),
     extend st (handshake (contractAddress st) s ++ [invocation o])).
Proof.
  intros Hc Hi Hr; use_env.
  destruct o; use_invoke Hi; try (by edestruct Hr);
    run_step; f_equal; store_eq.
Qed.

Lemma settlement_cases (env : Env) (o : operation) (st : Store) :
  settlement env o st.
Proof.
  pose (s0 := {| signer_account := "" |}).
  destruct (window env) as [w|] eqn:Hw.
  2:{ apply (settles_unconnected _ _ _
               (JError "ReferenceError" "window is not defined") [] s0).
      - intros s c Hc. use_env. congruence.
      - apply prefix_nil.
      - intros st' _. by apply run_no_window. }
  destruct (ethereum w) as [eth|] eqn:He.
  2:{ apply (settles_unconnected _ _ _ wallet_missing_error [] s0).
      - intros s c Hc. use_env. congruence.
      - apply prefix_nil.
      - intros st' _. by eapply run_no_wallet. }
  assert (Hwal : wallet env eth) by (by exists w).
  destruct (request eth "eth_requestAccounts") as [v|e] eqn:Hr.
  2:{ apply (settles_unconnected _ _ _ e [account_request] s0).
      - intros s c Hc. use_env. congruence.
      - by eexists.
      - intros st' _. by eapply run_rejected. }
  destruct (Web3Provider env eth) as [p|e] eqn:Hp.
  2:{ apply (settles_unconnected _ _ _ e [account_request; EvWeb3Provider] s0).
      - intros s c Hc. use_env. congruence.
      - by eexists.
      - intros st' _. by eapply run_provider_throws. }
  assert (Hs : signer_obtained env (getSigner p)) by (by exists eth, v, p).
  destruct (decide (contractAddress st = "")) as [Ha|Ha].
  { apply (settles_unconnected _ _ _ configuration_error
             [account_request; EvWeb3Provider; EvGetSigner] s0).
    - intros s c (_ & Hne & _). done.
    - by eexists.
    - intros st' Hst'. eapply run_unset; [done | congruence]. }
  destruct (ethers_Contract env (contractAddress st) (getSigner p)) as [c|e] eqn:Hc.
  2:{ apply (settles_unconnected _ _ _ e
               (handshake (contractAddress st) (getSigner p)) (getSigner p)).
      - intros s c' Hc'. use_env. congruence.
      - done.
      - intros st' Hst'. rewrite <- Hst' in *. by eapply run_handle_throws. }
  assert (Hcon : connected env (contractAddress st) (getSigner p) c) by done.
  destruct (invoke c o) as [r|e] eqn:Hi.
  2:{ by eapply settles_call_throws. }
  destruct r as [tx|v'|r|rs].
  - destruct (tx_wait tx) as [receipt|e] eqn:Hwait.
    + by eapply settles_mined.
    + by eapply settles_wait_throws.
  - by eapply settles_read.
  - by eapply settles_read.
  - by eapply settles_read.
Qed.

Lemma handshake_prefix_plain (evs : list event) (addr : string) (s : Signer) :
  evs `prefix_of` handshake addr s ->
  Forall (fun ev => is_wait ev = false /\ is_console ev = false /\
                    is_call ev = false /\ is_storage ev = false) evs.
Proof.
  intros [k Hk].
  assert (Hall : Forall (fun ev => is_wait ev = false /\ is_console ev = false /\
                                   is_call ev = false /\ is_storage ev = false)
                   (handshake addr s)) by (by repeat constructor).
  rewrite Hk in Hall. by apply Forall_app in Hall as [? _].
Qed.

Lemma handshake_prefix_silent (evs : list event) (addr : string) (s : Signer) :
  evs `prefix_of` handshake addr s -> List.filter is_console evs = [].
Proof.
  intros Hpre. apply handshake_prefix_plain in Hpre.
  induction Hpre as [|ev evs' (_ & Hcon & _) _ IH]; [done|].
  cbn. by rewrite Hcon.
Qed.

(** The interactions of any run: never the browser storage. *)
Lemma run_leaves_storage_alone (env : Env) (o : operation) (st : Store) :
  exists out evs,
    run env o st = (out, extend st evs) /\
    Forall (fun ev => is_storage ev = false) evs.
Proof.
  destruct (settlement_cases env o st)
    as [e evs s _ Hpre Hrun | s c e Hc Hi | s c tx e Hc Hi Hw
        | s c tx v Hc Hi Hw | s c r Hc Hi Hr].
  - exists (Throw e), (evs ++ [EvConsoleError (label o) e]).
    split; [by apply Hrun|]. apply Forall_app. split; [|by repeat constructor].
    eapply Forall_impl; [by eapply handshake_prefix_plain|].
    by intros ev (? & ? & ? & ?).
  - eexists _, _. split; [by eapply run_call_throws|]. by repeat constructor.
  - eexists _, _. split; [by eapply run_wait_throws|]. by repeat constructor.
  - eexists _, _. split; [by eapply run_tx_mined|]. by repeat constructor.
  - eexists _, _. split; [by eapply run_read_resolves|]. by repeat constructor.
Qed.

(** ** The write operations *)

(** X1: a write operation ([addRecord], [grantAccess], [revokeAccess])
    resolves only when the contract method returned a transaction and the
    wait for its confirmation resolved; it resolves with that transaction
    object itself, after the handshake, the one invocation and the wait. *)
Theorem write_resolves_after_confirmation
    (env : Env) (o : operation) (st : Store) (r : result) :
  is_write o = true ->
  fst (run env o st) = Ok r ->
  exists s c tx receipt,
    connected env (contractAddress st) s c /\
    invoke c o = Ok (ReplyTx tx) /\
    tx_wait tx = Ok receipt /\
    r = RTx tx /\
    issued (run env o) st =
      handshake (contractAddress st) s ++ [invocation o; EvWait (tx_hash tx)].
Proof.
  intros Hwr Hok.
  destruct (settlement_cases env o st)
    as [e evs s _ _ Hrun | s c e Hc Hi | s c tx e Hc Hi Hw
        | s c tx v Hc Hi Hw | s c r' Hc Hi Hr].
  - by rewrite (Hrun st eq_refl) in Hok.
  - by rewrite (run_call_throws env o st s c e Hc Hi) in Hok.
  - by rewrite (run_wait_throws env o st s c tx e Hc Hi Hw) in Hok.
  - pose proof (run_tx_mined env o st s c tx v Hc Hi Hw) as Hrun.
    rewrite Hrun in Hok. cbn in Hok. simplify_eq.
    exists s, c, tx, v. do 4 (split; [done|]). by eapply issued_extend.
  - destruct (invoke_write c o r' Hwr Hi) as (tx & ->). by destruct (Hr tx).
Qed.

Lemma write_resolves_after_confirmation_witness :
  exists s c tx receipt,
    connected (Demo.browser (Some Demo.granting) None) "0xABC" s c /\
    invoke c (OpAddRecord (JString "Qm123") (JString "xray") (JNumber (Z2F 2048)))
      = Ok (ReplyTx tx) /\
    tx_wait tx = Ok receipt /\
    RTx Demo.mined = RTx tx.
Proof.
  destruct (write_resolves_after_confirmation
              (Demo.browser (Some Demo.granting) None)
              (OpAddRecord (JString "Qm123") (JString "xray") (JNumber (Z2F 2048)))
              Demo.deployed (RTx Demo.mined) eq_refl eq_refl)
    as (s & c & tx & receipt & Hc & Hi & Hw & Hr & _).
  by exists s, c, tx, receipt.
Defined.

(** X2: a read operation ([hasAccess], [getRecord], [getMyRecords],
    [getAccessibleRecords]) never waits for a confirmation, whatever the
    environment answers. *)
Theorem read_never_waits (env : Env) (o : operation) (st : Store) :
  is_write o = false ->
  Forall (fun ev => is_wait ev = false) (issued (run env o) st).
Proof.
  intros Hrd.
  destruct (settlement_cases env o st)
    as [e evs s _ Hpre Hrun | s c e Hc Hi | s c tx e Hc Hi Hw
        | s c tx v Hc Hi Hw | s c r Hc Hi Hr].
  - rewrite (issued_extend _ _ _ _ (Hrun st eq_refl)).
    apply Forall_app. split; [|by repeat constructor].
    eapply Forall_impl; [by eapply handshake_prefix_plain|].
    by intros ev (? & ? & ? & ?).
  - rewrite (issued_extend _ _ _ _ (run_call_throws env o st s c e Hc Hi)).
    by repeat constructor.
  - by destruct (invoke_read c o _ Hrd Hi tx).
  - by destruct (invoke_read c o _ Hrd Hi tx).
  - rewrite (issued_extend _ _ _ _ (run_read_resolves env o st s c r Hc Hi Hr)).
    by repeat constructor.
Qed.

Lemma read_never_waits_witness :
  Forall (fun ev => is_wait ev = false)
    (issued (run (Demo.browser (Some Demo.granting) None) OpGetAccessibleRecords)
            Demo.deployed).
Proof.
  exact (read_never_waits (Demo.browser (Some Demo.granting) None)
           OpGetAccessibleRecords Demo.deployed eq_refl).
Defined.

(** ** Logging and state *)

(** X3: an operation writes to the diagnostic channel exactly when it
    rejects: nothing when it resolves, and one entry, under its own label and
    with the error it rejects with, when it fails. *)
Theorem logs_exactly_on_failure (env : Env) (o : operation) (st : Store) :
  (forall r, fst (run env o st) = Ok r ->
     List.filter is_console (issued (run env o) st) = []) /\
  (forall e, fst (run env o st) = Throw e ->
     List.filter is_console (issued (run env o) st) = [EvConsoleError (label o) e]).
Proof.
  destruct (settlement_cases env o st)
    as [e evs s _ Hpre Hrun | s c e Hc Hi | s c tx e Hc Hi Hw
        | s c tx v Hc Hi Hw | s c r Hc Hi Hr].
  - pose proof (Hrun st eq_refl) as Hst.
    rewrite (issued_extend _ _ _ _ Hst), Hst. cbn [fst].
    split; [done|]. intros e' [= <-].
    rewrite List.filter_app. cbn.
    by rewrite (handshake_prefix_silent evs _ _ Hpre).
  - pose proof (run_call_throws env o st s c e Hc Hi) as Hst.
    rewrite (issued_extend _ _ _ _ Hst), Hst. cbn [fst].
    split; [done|]. by intros e' [= <-].
  - pose proof (run_wait_throws env o st s c tx e Hc Hi Hw) as Hst.
    rewrite (issued_extend _ _ _ _ Hst), Hst. cbn [fst].
    split; [done|]. by intros e' [= <-].
  - pose proof (run_tx_mined env o st s c tx v Hc Hi Hw) as Hst.
    rewrite (issued_extend _ _ _ _ Hst), Hst. cbn [fst].
    split; [done|]. by intros e' [=].
  - pose proof (run_read_resolves env o st s c r Hc Hi Hr) as Hst.
    rewrite (issued_extend _ _ _ _ Hst), Hst. cbn [fst].
    split; [done|]. by intros e' [=].
Qed.

Lemma logs_exactly_on_failure_witness :
  List.filter is_console
    (issued (run (Demo.browser (Some Demo.granting) None)
                 (OpGrantAccess (JNumber (Z2F 0)) (JString "0xDOC")))
            Demo.deployed) =
    [EvConsoleError "Error granting access:" (new_Error "transaction failed")].
Proof.
  exact (proj2 (logs_exactly_on_failure (Demo.browser (Some Demo.granting) None)
                  (OpGrantAccess (JNumber (Z2F 0)) (JString "0xDOC")) Demo.deployed)
           (new_Error "transaction failed") eq_refl).
Defined.

(** X4: what an operation does depends on the store only through the
    contract address: two stores with the same address, whatever their
    browser storage and their history, give the same outcome and the same
    interactions. *)
Theorem operations_read_only_the_address
    (env : Env) (o : operation) (st st' : Store) :
  contractAddress st = contractAddress st' ->
  fst (run env o st) = fst (run env o st') /\
  issued (run env o) st = issued (run env o) st'.
Proof.
  intros Ha.
  destruct (settlement_cases env o st)
    as [e evs s _ Hpre Hrun | s c e Hc Hi | s c tx e Hc Hi Hw
        | s c tx v Hc Hi Hw | s c r Hc Hi Hr].
  - pose proof (Hrun st eq_refl) as H1. pose proof (Hrun st' (eq_sym Ha)) as H2.
    by rewrite (issued_extend _ _ _ _ H1), (issued_extend _ _ _ _ H2), H1, H2.
  - pose proof (run_call_throws env o st s c e Hc Hi) as H1.
    rewrite Ha in Hc.
    pose proof (run_call_throws env o st' s c e Hc Hi) as H2.
    by rewrite (issued_extend _ _ _ _ H1), (issued_extend _ _ _ _ H2), H1, H2, Ha.
  - pose proof (run_wait_throws env o st s c tx e Hc Hi Hw) as H1.
    rewrite Ha in Hc.
    pose proof (run_wait_throws env o st' s c tx e Hc Hi Hw) as H2.
    by rewrite (issued_extend _ _ _ _ H1), (issued_extend _ _ _ _ H2), H1, H2, Ha.
  - pose proof (run_tx_mined env o st s c tx v Hc Hi Hw) as H1.
    rewrite Ha in Hc.
    pose proof (run_tx_mined env o st' s c tx v Hc Hi Hw) as H2.
    by rewrite (issued_extend _ _ _ _ H1), (issued_extend _ _ _ _ H2), H1, H2, Ha.
  - pose proof (run_read_resolves env o st s c r Hc Hi Hr) as H1.
    rewrite Ha in Hc.
    pose proof (run_read_resolves env o st' s c r Hc Hi Hr) as H2.
    by rewrite (issued_extend _ _ _ _ H1), (issued_extend _ _ _ _ H2), H1, H2, Ha.
Qed.

Lemma operations_read_only_the_address_witness :
  fst (run (Demo.browser (Some Demo.granting) None) OpGetMyRecords Demo.deployed) =
  fst (run (Demo.browser (Some Demo.granting) None) OpGetMyRecords
           {| contractAddress := "0xABC";
              localStorage := {[ storage_key := "0xOTHER" ]};
              trace := [EvGetItem storage_key] |}).
Proof.
  exact (proj1 (operations_read_only_the_address
                  (Demo.browser (Some Demo.granting) None) OpGetMyRecords
                  Demo.deployed
                  {| contractAddress := "0xABC";
                     localStorage := {[ storage_key := "0xOTHER" ]};
                     trace := [EvGetItem storage_key] |} eq_refl)).
Defined.

Lemma run_all_extends (history : list (Env * operation)) (st : Store) :
  exists evs,
    run_all history st = extend st evs /\
    Forall (fun ev => is_storage ev = false) evs.
Proof.
  revert st. induction history as [|[env o] rest IH]; intros st.
  - exists []. split; [|constructor].
    destruct st. unfold extend. cbn. by rewrite app_nil_r.
  - cbn [run_all].
    destruct (run_leaves_storage_alone env o st) as (out & evs & Hrun & Hevs).
    rewrite Hrun. cbn [snd].
    destruct (IH (extend st evs)) as (evs' & -> & Hevs').
    exists (evs ++ evs'). split; [|by apply Forall_app].
    unfold extend. cbn. by rewrite app_assoc.
Qed.

(** X5: no sequence of record operations, resolved or rejected, changes the
    contract address or the browser storage, or reads or writes the storage
    at all; the trace only grows. *)
Theorem operations_never_write_state
    (history : list (Env * operation)) (st : Store) :
  contractAddress (run_all history st) = contractAddress st /\
  localStorage (run_all history st) = localStorage st /\
  exists evs,
    trace (run_all history st) = trace st ++ evs /\
    Forall (fun ev => is_storage ev = false) evs.
Proof.
  destruct (run_all_extends history st) as (evs & -> & Hevs).
  split; [done|]. split; [done|]. by exists evs.
Qed.

(** X16: an operation resolves only with what the contract replied in this
    very call: a handle was built, the method resolved, a transaction was
    confirmed, and the value is the reply in the operation's shape; nothing
    is ever resolved from a default or an earlier call. *)
Theorem resolves_only_with_contract_reply
    (env : Env) (o : operation) (st : Store) (r : result) :
  fst (run env o st) = Ok r ->
  exists s c rep,
    connected env (contractAddress st) s c /\
    invoke c o = Ok rep /\
    r = shape o rep /\
    (forall tx, rep = ReplyTx tx -> exists receipt, tx_wait tx = Ok receipt).
Proof.
  intros Hok.
  destruct (settlement_cases env o st)
    as [e evs s _ _ Hrun | s c e Hc Hi | s c tx e Hc Hi Hw
        | s c tx v Hc Hi Hw | s c r' Hc Hi Hr].
  - by rewrite (Hrun st eq_refl) in Hok.
  - by rewrite (run_call_throws env o st s c e Hc Hi) in Hok.
  - by rewrite (run_wait_throws env o st s c tx e Hc Hi Hw) in Hok.
  - rewrite (run_tx_mined env o st s c tx v Hc Hi Hw) in Hok.
    cbn in Hok. simplify_eq. exists s, c, (ReplyTx tx).
    do 3 (split; [done|]). intros tx' [= <-]. by exists v.
  - rewrite (run_read_resolves env o st s c r' Hc Hi Hr) in Hok.
    cbn in Hok. simplify_eq. exists s, c, r'.
    do 3 (split; [done|]). intros tx ->. by destruct (Hr tx).
Qed.

Lemma resolves_only_with_contract_reply_witness :
  exists s c rep,
    connected (Demo.browser (Some Demo.granting) None) "0xABC" s c /\
    invoke c (OpHasAccess JNull JNull) = Ok rep /\
    RValue (JBool true) = shape (OpHasAccess JNull JNull) rep.
Proof.
  destruct (resolves_only_with_contract_reply
              (Demo.browser (Some Demo.granting) None) (OpHasAccess JNull JNull)
              Demo.deployed (RValue (JBool true)) eq_refl)
    as (s & c & rep & Hc & Hi & Hr & _).
  by exists s, c, rep.
Defined.

Lemma extend_empty (st : Store) : extend st [] = st.
Proof. destruct st. unfold extend. cbn. by rewrite app_nil_r. Qed.

(** ** [getProviderAndSigner] and [getContract] called on their own *)

Lemma getProviderAndSigner_granted (env : Env) (st : Store)
    (eth : Ethereum) (v : jsval) (p : Provider) :
  wallet env eth ->
  request eth "eth_requestAccounts" = Ok v ->
  Web3Provider env eth = Ok p ->
  getProviderAndSigner env st =
    (Ok {| provider := p; signer := getSigner p |},
     extend st [account_request; EvWeb3Provider; EvGetSigner]).
Proof. intros; use_env. run_step. f_equal; store_eq. Qed.

(** X6: [getProviderAndSigner] resolves exactly when a wallet is injected,
    grants the account request and a provider is built over it; the pair it
    returns is that provider and the signer of that same provider.  Whatever
    happens, it only adds (a prefix of) request, provider, signer to the
    trace, so it never logs and never touches the contract or the store's
    address and storage; without a wallet it does nothing at all. *)
Theorem getProviderAndSigner_resolves_iff
    (env : Env) (st : Store) (ps : ProviderAndSigner) :
  (fst (getProviderAndSigner env st) = Ok ps <->
     exists eth v,
       wallet env eth /\
       request eth "eth_requestAccounts" = Ok v /\
       Web3Provider env eth = Ok (provider ps) /\
       signer ps = getSigner (provider ps)) /\
  (exists evs,
     snd (getProviderAndSigner env st) = extend st evs /\
     evs `prefix_of` [account_request; EvWeb3Provider; EvGetSigner]) /\
  ((forall eth, ~ wallet env eth) ->
     issued (getProviderAndSigner env) st = []).
Proof.
  destruct (window env) as [w|] eqn:Hw.
  2:{ assert (Hrun : getProviderAndSigner env st =
                     (Throw (JError "ReferenceError" "window is not defined"), st)).
      { run_step. done. }
      rewrite Hrun. cbn [fst snd]. split; [|split].
      - split; [done|]. intros (eth & v & Hwal & _). use_env. congruence.
      - exists []. split; [by rewrite extend_empty | apply prefix_nil].
      - intros _. apply issued_app. rewrite Hrun. cbn. by rewrite app_nil_r. }
  destruct (ethereum w) as [eth|] eqn:He.
  2:{ assert (Hrun : getProviderAndSigner env st = (Throw wallet_missing_error, st)).
      { run_step. done. }
      rewrite Hrun. cbn [fst snd]. split; [|split].
      - split; [done|]. intros (eth & v & Hwal & _). use_env. congruence.
      - exists []. split; [by rewrite extend_empty | apply prefix_nil].
      - intros _. apply issued_app. rewrite Hrun. cbn. by rewrite app_nil_r. }
  assert (Hwal : wallet env eth) by (by exists w).
  destruct (request eth "eth_requestAccounts") as [v|e] eqn:Hr.
  2:{ assert (Hrun : getProviderAndSigner env st =
                     (Throw e, extend st [account_request])).
      { run_step. f_equal. }
      rewrite Hrun. cbn [fst snd]. split; [|split].
      - split; [done|]. intros (eth' & v & Hwal' & Hr' & _). use_env. congruence.
      - exists [account_request]. split; [done | by eexists].
      - intros Hno. by destruct (Hno eth). }
  destruct (Web3Provider env eth) as [p|e] eqn:Hp.
  2:{ assert (Hrun : getProviderAndSigner env st =
                     (Throw e, extend st [account_request; EvWeb3Provider])).
      { run_step. f_equal; store_eq. }
      rewrite Hrun. cbn [fst snd]. split; [|split].
      - split; [done|]. intros (eth' & v' & Hwal' & _ & Hp' & _). use_env. congruence.
      - exists [account_request; EvWeb3Provider]. split; [done | by eexists].
      - intros Hno. by destruct (Hno eth). }
  rewrite (getProviderAndSigner_granted env st eth v p Hwal Hr Hp). cbn [fst snd].
  split; [|split].
  - split.
    + intros [= <-]. by exists eth, v.
    + intros (eth' & v' & Hwal' & _ & Hp' & Hs). use_env.
      assert (eth' = eth) as -> by congruence.
      destruct ps as [p' s']. cbn in *. congruence.
  - by eexists.
  - intros Hno. by destruct (Hno eth).
Qed.

Lemma getProviderAndSigner_resolves_iff_witness :
  fst (getProviderAndSigner (Demo.browser (Some Demo.granting) None) Demo.unset) =
    Ok {| provider := {| getSigner := Demo.patient |}; signer := Demo.patient |}.
Proof.
  apply (proj1 (getProviderAndSigner_resolves_iff
                  (Demo.browser (Some Demo.granting) None) Demo.unset
                  {| provider := {| getSigner := Demo.patient |};
                     signer := Demo.patient |})).
  exists Demo.granting, (JArray [JString "0xPATIENT"]).
  split; [|split; [|split]]; try reflexivity.
  exists {| ethereum := Some Demo.granting |}. split; reflexivity.
Defined.

(** X7: [getContract] never reaches the wallet and needs no window: with an
    unset address it throws the configuration error without any interaction;
    with an address it only builds the handle, for the address of that
    moment and the signer it was given, and returns what ethers returns. *)
Theorem getContract_needs_no_wallet (env : Env) (s : Signer) (st : Store) :
  (contractAddress st = "" ->
     getContract env s st = (Throw configuration_error, st)) /\
  (contractAddress st <> "" ->
     getContract env s st =
       (ethers_Contract env (contractAddress st) s,
        extend st [EvContract (contractAddress st) s])) /\
  Forall (fun ev => is_network ev = false /\ is_console ev = false)
    (issued (getContract env s) st).
Proof.
  destruct (decide (contractAddress st = "")) as [Ha|Ha].
  - assert (Hrun : getContract env s st = (Throw configuration_error, st)).
    { apply truthy_empty in Ha. run_step. done. }
    split; [done|]. split; [done|].
    rewrite (issued_app _ _ []); [constructor|].
    rewrite Hrun. cbn. by rewrite app_nil_r.
  - assert (Hrun : getContract env s st =
                   (ethers_Contract env (contractAddress st) s,
                    extend st [EvContract (contractAddress st) s])).
    { pose proof Ha as Ht. apply truthy_nonempty in Ht. run_step.
      by destruct (ethers_Contract env (contractAddress st) s). }
    split; [done|]. split; [done|].
    rewrite (issued_app _ _ [EvContract (contractAddress st) s]);
      [by repeat constructor|].
    by rewrite Hrun.
Qed.

Lemma getContract_needs_no_wallet_witness :
  getContract Demo.server Demo.patient Demo.deployed =
    (Ok Demo.contract, extend Demo.deployed [EvContract "0xABC" Demo.patient]).
Proof.
  refine (proj1 (proj2 (getContract_needs_no_wallet
                          Demo.server Demo.patient Demo.deployed)) _).
  discriminate.
Defined.

(** ** The address, in memory and in the storage *)

Lemma setContractAddress_server (env : Env) (a : string) (st : Store) :
  window env = None ->
  setContractAddress env a st = (Ok tt, set_contractAddress a st).
Proof.
  intros Hw. unfold setContractAddress, write_contractAddress, bind, ret.
  by rewrite Hw.
Qed.

Lemma initContractAddress_server (env : Env) (st : Store) :
  window env = None -> initContractAddress env st = (Ok tt, st).
Proof. intros Hw. unfold initContractAddress, ret. by rewrite Hw. Qed.

Lemma startup_contractAddress (env : Env) (persisted : gmap string string) :
  contractAddress (startup env persisted) =
    default "" (NEXT_PUBLIC_CONTRACT_ADDRESS env).
Proof.
  unfold startup, or_empty. cbn.
  destruct (NEXT_PUBLIC_CONTRACT_ADDRESS env) as [d|]; [|done].
  cbn. destruct (truthy d) eqn:Hd; [done|]. by apply truthy_empty in Hd.
Qed.

(** X8: within one session, [initContractAddress] right after
    [setContractAddress a] leaves the address at [a], for every string [a]
    (the empty one included) and with or without a window; it does not
    change what [setContractAddress] stored. *)
Theorem init_after_set_keeps_address (env : Env) (a : string) (st : Store) :
  contractAddress
    (snd (initContractAddress env (snd (setContractAddress env a st)))) = a /\
  localStorage
    (snd (initContractAddress env (snd (setContractAddress env a st)))) =
  localStorage (snd (setContractAddress env a st)).
Proof.
  destruct (window env) as [w|] eqn:Hw.
  - rewrite (setContractAddress_browser env a st w Hw). cbn [snd]. split.
    + rewrite (initContractAddress_browser env _ w Hw). cbn.
      rewrite lookup_insert_eq. by destruct (truthy a).
    + unfold initContractAddress, localStorage_getItem, write_contractAddress,
        bind, ret.
      rewrite Hw. cbn. rewrite lookup_insert_eq. by destruct (truthy a).
  - rewrite (setContractAddress_server env a st Hw). cbn [snd].
    by rewrite (initContractAddress_server env _ Hw).
Qed.

(** X9: on a page load a persisted non-empty address takes precedence over
    the environment's default; a persisted empty string, or loading without
    a window, leaves the default. *)
Theorem page_load_precedence (env : Env) (persisted : gmap string string) :
  (forall w a, window env = Some w -> persisted !! storage_key = Some a ->
     a <> "" -> contractAddress (page_load env persisted) = a) /\
  (persisted !! storage_key = Some "" ->
     contractAddress (page_load env persisted) =
       default "" (NEXT_PUBLIC_CONTRACT_ADDRESS env)) /\
  (window env = None ->
     contractAddress (page_load env persisted) =
       default "" (NEXT_PUBLIC_CONTRACT_ADDRESS env)).
Proof.
  unfold page_load. split; [|split].
  - intros w a Hw Ha Hne. rewrite (initContractAddress_browser env _ w Hw).
    change (localStorage (startup env persisted)) with persisted. rewrite Ha.
    apply truthy_nonempty in Hne. by rewrite Hne.
  - intros Ha. destruct (window env) as [w|] eqn:Hw.
    + rewrite (initContractAddress_browser env _ w Hw).
      change (localStorage (startup env persisted)) with persisted. rewrite Ha.
      change (truthy "") with false. cbv iota.
      apply startup_contractAddress.
    + rewrite (initContractAddress_server env _ Hw). cbn [snd].
      apply startup_contractAddress.
  - intros Hw. rewrite (initContractAddress_server env _ Hw). cbn [snd].
    apply startup_contractAddress.
Qed.

Lemma page_load_precedence_witness :
  contractAddress
    (page_load (Demo.browser None (Some "0xDEF")) {[ storage_key := "0xABC" ]})
    = "0xABC".
Proof.
  refine (proj1 (page_load_precedence (Demo.browser None (Some "0xDEF"))
                   {[ storage_key := "0xABC" ]})
            {| ethereum := None |} "0xABC" eq_refl eq_refl _).
  discriminate.
Defined.

(** X10: an address set where there is no window is kept in memory only:
    the storage is untouched, and the next page load ends with the address
    it would have had if [setContractAddress] had never been called.  And an
    address persisted in a browser is not seen by a load without a window. *)
Theorem address_set_without_window_is_lost
    (env1 env2 : Env) (a : string) (st : Store) :
  (window env1 = None ->
     contractAddress (snd (setContractAddress env1 a st)) = a /\
     localStorage (snd (setContractAddress env1 a st)) = localStorage st /\
     restored_across env1 env2 a st =
       contractAddress (page_load env2 (localStorage st))) /\
  (window env2 = None ->
     restored_across env1 env2 a st =
       default "" (NEXT_PUBLIC_CONTRACT_ADDRESS env2)).
Proof.
  unfold restored_across. split.
  - intros Hw. by rewrite (setContractAddress_server env1 a st Hw).
  - intros Hw. unfold page_load.
    rewrite (initContractAddress_server env2 _ Hw). cbn [snd].
    apply startup_contractAddress.
Qed.

Lemma address_set_without_window_is_lost_witness :
  restored_across Demo.server (Demo.browser None (Some "0xDEF")) "0xABC" Demo.unset
    = "0xDEF".
Proof.
  destruct (address_set_without_window_is_lost
              Demo.server (Demo.browser None (Some "0xDEF")) "0xABC" Demo.unset)
    as [Hlost _].
  destruct (Hlost eq_refl) as (_ & _ & ->). reflexivity.
Defined.

(** X11: [setContractAddress] writes one storage key and no other; a second
    call overrides the first, in memory and in the storage.  In the browser
    the key holds [a] after [setContractAddress a], by one [setItem], and [b]
    after a following [setContractAddress b]; in memory the address is [a],
    then [b]. *)
Theorem setContractAddress_last_write_wins
    (env : Env) (a b : string) (st : Store) :
  (forall k, k <> storage_key ->
     localStorage (snd (setContractAddress env a st)) !! k = localStorage st !! k) /\
  contractAddress
    (snd (setContractAddress env b (snd (setContractAddress env a st)))) = b /\
  localStorage
    (snd (setContractAddress env b (snd (setContractAddress env a st)))) =
  localStorage (snd (setContractAddress env b st)) /\
  contractAddress (snd (setContractAddress env a st)) = a /\
  (forall w, window env = Some w ->
     localStorage (snd (setContractAddress env a st)) !! storage_key = Some a /\
     localStorage
       (snd (setContractAddress env b (snd (setContractAddress env a st))))
       !! storage_key = Some b /\
     issued (setContractAddress env a) st = [EvSetItem storage_key a]).
Proof.
  destruct (window env) as [w|] eqn:Hw.
  - rewrite !(setContractAddress_browser env _ _ w Hw). cbn [snd localStorage contractAddress].
    split; [|split; [done|split; [|split; [done|]]]].
    + intros k Hk. by rewrite lookup_insert_ne.
    + apply insert_insert_eq.
    + intros w' _. rewrite !lookup_insert_eq. split; [done|]. split; [done|].
      apply issued_app. by rewrite (setContractAddress_browser env a st w Hw).
  - rewrite !(setContractAddress_server env _ _ Hw).
    split; [done|]. split; [done|]. split; [done|]. split; [done|]. by intros w' [=].
Qed.

Lemma setContractAddress_last_write_wins_witness :
  localStorage (snd (setContractAddress (Demo.browser None None) "0xABC"
                       {| contractAddress := ""; localStorage := {[ "theme" := "dark" ]};
                          trace := [] |})) !! "theme" = Some "dark" /\
  localStorage (snd (setContractAddress (Demo.browser None None) "0xABC"
                       {| contractAddress := ""; localStorage := {[ "theme" := "dark" ]};
                          trace := [] |})) !! storage_key = Some "0xABC".
Proof.
  destruct (setContractAddress_last_write_wins
              (Demo.browser None None) "0xABC" "0xABC"
              {| contractAddress := ""; localStorage := {[ "theme" := "dark" ]};
                 trace := [] |}) as (Hother & _ & _ & _ & Hkey).
  split.
  - refine (eq_trans (Hother "theme" _) _); [discriminate | reflexivity].
  - exact (proj1 (Hkey {| ethereum := None |} eq_refl)).
Defined.

(** X12: an operation uses the address most recently set: after
    [setContractAddress a] with a non-empty [a], in whatever environment and
    whether or not it could be persisted, an operation whose wallet step
    succeeds builds its handle for [a] and invokes its method on it. *)
Theorem operation_uses_address_last_set
    (env0 env : Env) (a : string) (st : Store) (o : operation)
    (s : Signer) (c : Contract.t) :
  connected env a s c ->
  exists post,
    issued (run env o) (snd (setContractAddress env0 a st)) =
      handshake a s ++ invocation o :: post /\
    Forall (fun ev => is_call ev = false) post.
Proof.
  intros Hc.
  assert (Ha : contractAddress (snd (setContractAddress env0 a st)) = a).
  { destruct (window env0) as [w|] eqn:Hw.
    - by rewrite (setContractAddress_browser env0 a st w Hw).
    - by rewrite (setContractAddress_server env0 a st Hw). }
  rewrite <- Ha in Hc.
  destruct (run_connected_shape env o _ s c Hc) as (out & post & Hrun & Hpost & _).
  exists post. split; [|done].
  rewrite (issued_extend _ _ _ _ Hrun). by rewrite Ha.
Qed.

Lemma operation_uses_address_last_set_witness :
  exists post,
    issued (run (Demo.browser (Some Demo.granting) None) OpGetMyRecords)
           (snd (setContractAddress Demo.server "0xNEW" Demo.deployed)) =
      handshake "0xNEW" Demo.patient ++ invocation OpGetMyRecords :: post /\
    Forall (fun ev => is_call ev = false) post.
Proof.
  apply (operation_uses_address_last_set Demo.server
           (Demo.browser (Some Demo.granting) None) "0xNEW" Demo.deployed
           OpGetMyRecords Demo.patient Demo.contract).
  split; [|split; [discriminate | reflexivity]].
  exists Demo.granting, (JArray [JString "0xPATIENT"]), {| getSigner := Demo.patient |}.
  split; [|split; [|split]]; try reflexivity.
  exists {| ethereum := Some Demo.granting |}. split; reflexivity.
Defined.

(** ** The listings, element by element *)

Lemma Z2F_injective_safe (n m : Z) :
  (- MAX_SAFE_INTEGER <= n <= MAX_SAFE_INTEGER)%Z ->
  (- MAX_SAFE_INTEGER <= m <= MAX_SAFE_INTEGER)%Z ->
  Z2F n = Z2F m -> n = m.
Proof.
  intros Hn Hm Heq. apply Z2F_exact in Hn, Hm.
  rewrite Heq in Hn. congruence.
Qed.

(** X13: a listing keeps the contract's records in place: the element at
    position [i] carries the [ipfsHash] and [recordType] of the record at
    position [i] and the [Number] of its [timestamp] and [size];
    [getAccessibleRecords] also carries its [owner], [getMyRecords] leaves
    [owner] undefined even when the contract supplied one. *)
Theorem listing_keeps_records_in_place
    (env : Env) (st : Store) (s : Signer) (c : Contract.t) :
  connected env (contractAddress st) s c ->
  (forall rs, Contract.getMyRecords c = Ok rs ->
     exists out,
       fst (getMyRecords env st) = Ok (JArray out) /\
       forall i r, rs !! i = Some r ->
         exists el,
           out !! i = Some el /\
           get_field "ipfsHash" el = ipfsHash r /\
           get_field "recordType" el = recordType r /\
           get_field "timestamp" el = JNumber (Number (timestamp r)) /\
           get_field "size" el = JNumber (Number (size r)) /\
           get_field "owner" el = JUndefined) /\
  (forall rs, Contract.getAccessibleRecords c = Ok rs ->
     exists out,
       fst (getAccessibleRecords env st) = Ok (JArray out) /\
       forall i r, rs !! i = Some r ->
         exists el,
           out !! i = Some el /\
           get_field "ipfsHash" el = ipfsHash r /\
           get_field "recordType" el = recordType r /\
           get_field "timestamp" el = JNumber (Number (timestamp r)) /\
           get_field "size" el = JNumber (Number (size r)) /\
           get_field "owner" el = owner r).
Proof.
  intros Hc. split.
  - intros rs Hrs. exists (imap my_view rs).
    rewrite (getMyRecords_connected env st s c rs Hc Hrs). split; [done|].
    intros i r Hr. exists (my_view i r).
    rewrite list_lookup_imap, Hr. done.
  - intros rs Hrs. exists (imap accessible_view rs).
    rewrite (getAccessibleRecords_connected env st s c rs Hc Hrs). split; [done|].
    intros i r Hr. exists (accessible_view i r).
    rewrite list_lookup_imap, Hr. done.
Qed.

Lemma listing_keeps_records_in_place_witness :
  exists out,
    fst (getAccessibleRecords (Demo.browser (Some Demo.granting) None) Demo.deployed)
      = Ok (JArray out) /\
    exists el, out !! 1 = Some el /\ get_field "owner" el = JString "0xPATIENT".
Proof.
  destruct (listing_keeps_records_in_place
              (Demo.browser (Some Demo.granting) None) Demo.deployed
              Demo.patient Demo.contract) as [_ Hacc].
  - split; [|split; [discriminate | reflexivity]].
    exists Demo.granting, (JArray [JString "0xPATIENT"]), {| getSigner := Demo.patient |}.
    split; [|split; [|split]]; try reflexivity.
    exists {| ethereum := Some Demo.granting |}. split; reflexivity.
  - destruct (Hacc [Demo.xray; Demo.scan] eq_refl) as (out & Hout & Hel).
    exists out. split; [exact Hout|].
    destruct (Hel 1 Demo.scan eq_refl) as (el & Hl & _ & _ & _ & _ & Hown).
    by exists el.
Defined.

(** X14: within one listing no two positions carry the same [id], as long
    as the listing has at most 2^53 elements. *)
Theorem listing_ids_are_distinct
    (env : Env) (st : Store) (s : Signer) (c : Contract.t) :
  connected env (contractAddress st) s c ->
  (forall rs, Contract.getMyRecords c = Ok rs ->
     (Z.of_nat (length rs) <= MAX_SAFE_INTEGER + 1)%Z ->
     exists out,
       fst (getMyRecords env st) = Ok (JArray out) /\
       forall i j eli elj,
         out !! i = Some eli -> out !! j = Some elj ->
         get_field "id" eli = get_field "id" elj -> i = j) /\
  (forall rs, Contract.getAccessibleRecords c = Ok rs ->
     (Z.of_nat (length rs) <= MAX_SAFE_INTEGER + 1)%Z ->
     exists out,
       fst (getAccessibleRecords env st) = Ok (JArray out) /\
       forall i j eli elj,
         out !! i = Some eli -> out !! j = Some elj ->
         get_field "id" eli = get_field "id" elj -> i = j).
Proof.
  intros Hc.
  assert (Hinj : forall (view : nat -> ChainRecord -> jsval) rs,
    (forall i r, get_field "id" (view i r) = JNumber (Z2F (Z.of_nat i))) ->
    (Z.of_nat (length rs) <= MAX_SAFE_INTEGER + 1)%Z ->
    forall i j eli elj,
      imap view rs !! i = Some eli -> imap view rs !! j = Some elj ->
      get_field "id" eli = get_field "id" elj -> i = j).
  { intros view rs Hview Hlen i j eli elj Hi Hj Heq.
    rewrite list_lookup_imap in Hi, Hj.
    destruct (rs !! i) as [ri|] eqn:Hri; [|done].
    destruct (rs !! j) as [rj|] eqn:Hrj; [|done].
    cbn in Hi, Hj. simplify_eq. rewrite !Hview in Heq.
    apply lookup_lt_Some in Hri, Hrj.
    injection Heq as Heq. apply Z2F_injective_safe in Heq; unfold MAX_SAFE_INTEGER in *; lia. }
  split.
  - intros rs Hrs Hlen. exists (imap my_view rs).
    rewrite (getMyRecords_connected env st s c rs Hc Hrs). split; [done|].
    by apply Hinj.
  - intros rs Hrs Hlen. exists (imap accessible_view rs).
    rewrite (getAccessibleRecords_connected env st s c rs Hc Hrs). split; [done|].
    by apply Hinj.
Qed.

Lemma listing_ids_are_distinct_witness :
  exists out,
    fst (getAccessibleRecords (Demo.browser (Some Demo.granting) None) Demo.deployed)
      = Ok (JArray out) /\
    forall i j eli elj,
      out !! i = Some eli -> out !! j = Some elj ->
      get_field "id" eli = get_field "id" elj -> i = j.
Proof.
  destruct (listing_ids_are_distinct
              (Demo.browser (Some Demo.granting) None) Demo.deployed
              Demo.patient Demo.contract) as [_ Hacc].
  - split; [|split; [discriminate | reflexivity]].
    exists Demo.granting, (JArray [JString "0xPATIENT"]), {| getSigner := Demo.patient |}.
    split; [|split; [|split]]; try reflexivity.
    exists {| ethereum := Some Demo.granting |}. split; reflexivity.
  - apply (Hacc [Demo.xray; Demo.scan] eq_refl). discriminate.
Defined.

(** ** Wide integers beyond the safe range *)

Lemma digits2_pos_52 (p : positive) :
  (2251799813685248 <= Zpos p < 4503599627370496)%Z ->
  digits2_pos p = 52%positive.
Proof.
  intros [Hlo Hhi]. rewrite digits2_pos_size.
  pose proof (Pos.size_le p) as Hle. pose proof (Pos.size_gt p) as Hgt.
  apply Pos2Z.pos_le_pos in Hle. apply Pos2Z.pos_lt_pos in Hgt.
  rewrite Pos2Z.inj_pow in Hle, Hgt.
  assert (H53 : (Zpos (Pos.size p) < 53)%Z).
  { apply (proj2 (Z.pow_lt_mono_r_iff 2 (Zpos (Pos.size p)) 53
                   ltac:(clear; lia) ltac:(clear; lia))).
    change (2 ^ 53)%Z with 9007199254740992%Z. lia. }
  assert (H51 : (51 < Zpos (Pos.size p))%Z).
  { apply (proj2 (Z.pow_lt_mono_r_iff 2 51 (Zpos (Pos.size p))
                   ltac:(clear; lia) ltac:(clear; lia))).
    change (2 ^ 51)%Z with 2251799813685248%Z. lia. }
  assert (Heq : Zpos (Pos.size p) = 52%Z) by lia.
  by injection Heq.
Qed.

(** A mantissa of 54 bits loses its last bit; a tie goes to the even
    neighbour. *)
Lemma binary_round_half_even (q : positive) :
  digits2_pos q = 52%positive ->
  binary_round 53 1024 false (q~0~1) 0 = S754_finite false (q~0) 1 /\
  binary_round 53 1024 false (q~0~0) 0 = S754_finite false (q~0) 1.
Proof.
  intros Hd.
  assert (H53 : digits2_pos q~0 = 53%positive) by (cbn; by rewrite Hd).
  assert (H54a : digits2_pos q~0~1 = 54%positive) by (cbn; by rewrite Hd).
  assert (H54b : digits2_pos q~0~0 = 54%positive) by (cbn; by rewrite Hd).
  split.
  - unfold binary_round, shl_align, fexp, emin. rewrite H54a.
    repeat (cbv -[digits2_pos]; rewrite ?H54a, ?H53). reflexivity.
  - unfold binary_round, shl_align, fexp, emin. rewrite H54b.
    repeat (cbv -[digits2_pos]; rewrite ?H54b, ?H53). reflexivity.
Qed.

Lemma Z2F_rounds_to_even (m : Z) :
  (2251799813685248 <= m < 4503599627370496)%Z ->
  Z2F (4 * m + 1) = Z2F (4 * m) /\
  float_int (Z2F (4 * m + 1)) = Some (4 * m)%Z.
Proof.
  intros Hm. destruct m as [|q|q]; [lia | | lia].
  pose proof (digits2_pos_52 q Hm) as Hq.
  change (4 * Z.pos q + 1)%Z with (Z.pos q~0~1).
  change (4 * Z.pos q)%Z with (Z.pos q~0~0).
  unfold Z2F. cbn [binary_normalize].
  destruct (binary_round_half_even q Hq) as [-> ->]. split; [done|].
  cbn. f_equal. lia.
Qed.

(** X15: [getRecord] does not return a wide [size] (or [timestamp]) exactly
    once it exceeds 2^53: for a size [4m + 1] between 2^53 and 2^54 the
    number returned is [4m], the same as for a record of size [4m]. *)
Theorem getRecord_rounds_beyond_safe
    (env : Env) (st : Store) (s : Signer) (c : Contract.t)
    (recordId : jsval) (r : ChainRecord) (m : Z) :
  (2251799813685248 <= m < 4503599627370496)%Z ->
  connected env (contractAddress st) s c ->
  Contract.getRecord c recordId = Ok r ->
  size r = NumWide (4 * m + 1) ->
  exists out,
    fst (getRecord env recordId st) = Ok out /\
    number_int (get_field "size" out) = Some (4 * m)%Z /\
    get_field "size" out = JNumber (Number (NumWide (4 * m))).
Proof.
  intros Hm Hc Hr Hsize. exists (record_view r).
  rewrite (getRecord_connected env st s c recordId r Hc Hr).
  split; [done|]. cbn. rewrite Hsize. cbn [Number].
  destruct (Z2F_rounds_to_even m Hm) as [Heq Hint]. by rewrite Heq in *.
Qed.

Lemma getRecord_rounds_beyond_safe_witness :
  exists out,
    fst (getRecord (Demo.browser (Some Demo.granting) None) JNull Demo.deployed)
      = Ok out /\
    number_int (get_field "size" out) = Some 9007199254740992%Z.
Proof.
  destruct (getRecord_rounds_beyond_safe
              (Demo.browser (Some Demo.granting) None) Demo.deployed
              Demo.patient Demo.contract JNull Demo.scan 2251799813685248)
    as (out & Hout & Hint & _).
  - lia.
  - split; [|split; [discriminate | reflexivity]].
    exists Demo.granting, (JArray [JString "0xPATIENT"]), {| getSigner := Demo.patient |}.
    split; [|split; [|split]]; try reflexivity.
    exists {| ethereum := Some Demo.granting |}. split; reflexivity.
  - reflexivity.
  - reflexivity.
  - by exists out.
Defined.

(** X17: [initContractAddress] is idempotent: calling it again changes
    neither the address nor the storage. *)
Theorem initContractAddress_idempotent (env : Env) (st : Store) :
  contractAddress
    (snd (initContractAddress env (snd (initContractAddress env st)))) =
  contractAddress (snd (initContractAddress env st)) /\
  localStorage
    (snd (initContractAddress env (snd (initContractAddress env st)))) =
  localStorage st.
Proof.
  destruct (window env) as [w|] eqn:Hw.
  - assert (Hsto : forall s, localStorage (snd (initContractAddress env s)) =
                             localStorage s).
    { intros s. unfold initContractAddress, localStorage_getItem,
        write_contractAddress, bind, ret.
      rewrite Hw. cbn. destruct (localStorage s !! storage_key) as [a|]; [|done].
      by destruct (truthy a). }
    split; [|by rewrite !Hsto].
    rewrite (initContractAddress_browser env _ w Hw), Hsto.
    rewrite (initContractAddress_browser env st w Hw).
    destruct (localStorage st !! storage_key) as [a|]; [|done].
    by destruct (truthy a).
  - by rewrite !(initContractAddress_server env _ Hw).
Qed.
